(** * GeoRisk-AI: the analysis cache and its aggregates

    A shallow embedding of the cache table and its two routes (server.ts),
    of the client calls (src/services), and of the state, handlers and
    memoised aggregates of the dashboard (src/App.tsx and
    src/components/GlobalMap.tsx), followed by the properties of the cache
    and of the aggregates.

    Conventions of the model
    - A JavaScript number is an IEEE 754 binary64 value ([spec_float] with
      53 bits of precision); sums, quotients and comparisons are the
      correctly rounded ones.
    - A JSON value is null, an object with the keys of an analysis (each
      of them optional, with its declared type when present), or any other
      value, which has none of these keys.
    - A point in time is a number of milliseconds ([Z]); the column
      [timestamp] holds CURRENT_TIMESTAMP, a text with a resolution of one
      second whose order is the order of time, so it is modelled as a
      number of seconds.
    - The TEXT column [analysis] holds JSON.stringify of the analysis and
      every reader applies JSON.parse to it; the model keeps the value that
      comes back.
    - String.prototype.toLowerCase and the reading of a date text by
      new Date depend on Unicode tables and on the local time zone; the
      functions that use them take them as parameters. *)

From Stdlib Require Import ZArith List String Ascii Bool Lia.
From Stdlib Require Import Permutation Sorted.
From Stdlib Require Import DecimalString DecimalPos DecimalZ.
From Stdlib Require Import Floats.SpecFloat.
Import ListNotations.

Local Open Scope string_scope.
Local Open Scope list_scope.

(* ------------------------------------------------------------------ *)
(** ** JavaScript numbers *)

Definition number : Type := spec_float.

Definition prec : Z := 53.
Definition emax : Z := 1024.

(** The number that an integer literal denotes. *)
Definition Number_of_Z (z : Z) : number := binary_normalize prec emax z 0 false.

(** a + b and a / b *)
Definition number_add (a b : number) : number := SFadd prec emax a b.
Definition number_div (a b : number) : number := SFdiv prec emax a b.

(** a >= b and a < b *)
Definition number_ge (a b : number) : bool := SFleb b a.
Definition number_lt (a b : number) : bool := SFltb a b.

(** acc + v where v may be null: null counts as 0. *)
Definition plus_nullable (acc : number) (v : option number) : number :=
  number_add acc (match v with Some x => x | None => S754_zero false end).

(** v >= bound where v may be null. *)
Definition nullable_ge (v : option number) (bound : number) : bool :=
  number_ge (match v with Some x => x | None => S754_zero false end) bound.

(** What JSON.parse(JSON.stringify(x)) is for a number [x]: NaN and the
    infinities print as null, minus zero prints as 0, every other number
    comes back as it is.  [None] is null. *)
Definition JSON_number (x : number) : option number :=
  match x with
  | S754_zero _ => Some (S754_zero false)
  | S754_finite _ _ _ => Some x
  | S754_infinity _ => None
  | S754_nan => None
  end.

(** The string that x.toFixed(1) returns: a numeral with one digit after
    the point, kept as its sign and its number of tenths, or, for NaN, the
    infinities and values from 10^21 on, the string of the number itself. *)
Inductive NumberString :=
| Numeral (negative : bool) (tenths : Z)
| Spelled (x : number).

(** x.toFixed(1).  The value of a finite number is m * 2^e; the numeral
    takes the integer n for which n / 10 is nearest to it, the larger one
    of two. *)
Definition toFixed1 (x : number) : NumberString :=
  match x with
  | S754_zero _ => Numeral false 0
  | S754_finite s m e =>
      if (10 ^ 21 <=? Z.shiftl (Z.pos m) e)%Z then Spelled x
      else
        Numeral s
          match e with
          | Zneg _ => ((20 * Z.pos m + 2 ^ (- e)) / (2 * 2 ^ (- e)))%Z
          | _ => (10 * Z.shiftl (Z.pos m) e)%Z
          end
  | _ => Spelled x
  end.

(** parseFloat of such a string: the number nearest to the numeral, the
    quotient of its whole number of tenths by 10 rounded once. *)
Definition parseFloat (text : NumberString) : number :=
  match text with
  | Numeral negative tenths =>
      match tenths with
      | Z0 => S754_zero negative
      | Zpos p => number_div (S754_finite negative p 0) (Number_of_Z 10)
      | Zneg p => number_div (S754_finite (negb negative) p 0) (Number_of_Z 10)
      end
  | Spelled x => x
  end.

(* ------------------------------------------------------------------ *)
(** ** src/services/riskAnalyzer.ts: the shape of an analysis *)

Record MarketImpact := {
  bullish : list string;
  bearish : list string
}.

Record Scenarios := {
  bestCase : string;
  baseCase : string;
  worstCase : string
}.

(** interface GeopoliticalAnalysis, as JSON.parse may deliver an object:
    [None] is a key that the object does not have (or has with null). *)
Record GeopoliticalAnalysis := {
  riskScore : option number;
  riskLevel : option string;
  region : option string;
  entities : option (list string);
  industries : option (list string);
  consequences : option string;
  reasoning : option string;
  marketImpact : option MarketImpact;
  scenarios : option Scenarios
}.

(** The object that JSON.parse gives for the text {}. *)
Definition empty_object : GeopoliticalAnalysis :=
  {| riskScore := None; riskLevel := None; region := None;
     entities := None; industries := None; consequences := None;
     reasoning := None; marketImpact := None; scenarios := None |}.

(** What JSON.parse can return. *)
Inductive Json :=
| JNull
| JOther (text : string)   (* a number, a string, a boolean or an array, with its JSON text *)
| JObject (a : GeopoliticalAnalysis).

(** The keys that can be read off a value: reading a key of null throws
    ([None]), a value that is not an object has none of the keys. *)
Definition fields (v : Json) : option GeopoliticalAnalysis :=
  match v with
  | JNull => None
  | JOther _ => Some empty_object
  | JObject a => Some a
  end.

(** JSON.parse(JSON.stringify(v)): the only part of an analysis that does
    not come back as it went is a riskScore that JSON cannot write. *)
Definition JSON_roundtrip (v : Json) : Json :=
  match v with
  | JObject a =>
      JObject
        {| riskScore := match riskScore a with
                        | Some x => JSON_number x
                        | None => None
                        end;
           riskLevel := riskLevel a; region := region a;
           entities := entities a; industries := industries a;
           consequences := consequences a; reasoning := reasoning a;
           marketImpact := marketImpact a; scenarios := scenarios a |}
  | other => other
  end.

(* ------------------------------------------------------------------ *)
(** ** src/services/newsService.ts: the two record types *)

Module NewsItem.
Record t := {
  id : string;
  headline : string;
  source : string;
  date : string;
  link : string
}.
End NewsItem.

(** A row as GET /api/cache delivers it.  [analysis] is the value that
    JSON.parse gives for the text of the column; [risk_score] is a number
    or null. *)
Module CachedAnalysis.
Record t := {
  id : string;
  headline : string;
  analysis : Json;
  risk_score : option number;
  timestamp : Z
}.
End CachedAnalysis.

(* ------------------------------------------------------------------ *)
(** ** server.ts: the table analysis_cache and the routes on it *)

Module Server.
Import CachedAnalysis.

(** The rows of analysis_cache in rowid order.  The primary key is the
    TEXT column [id]; a new row takes the next rowid, so it is last. *)
Definition Table := list CachedAnalysis.t.

(** The body of POST /api/cache after express.json().  saveToCache sends
    [risk_score: riskScore], and JSON.stringify leaves the key out when the
    score is undefined: [None] is a key that is absent or null.  An
    analysis that is absent is bound as NULL and read back as null. *)
Record PostBody := {
  b_id : string;
  b_headline : string;
  b_analysis : Json;
  b_risk_score : option number
}.

Inductive Status := Ok200 | Err500.

Definition has_id (i : string) (r : CachedAnalysis.t) : bool :=
  (id r =? i)%string.

(** The value of the column risk_score for a bound score: undefined and
    null are bound as NULL, NaN is stored as NULL, minus zero becomes the
    integer 0. *)
Definition stored_score (s : option number) : option number :=
  match s with
  | Some x => JSON_number x
  | None => None
  end.

(** INSERT OR REPLACE INTO analysis_cache (id, headline, analysis,
    risk_score) VALUES (?, ?, ?, ?): a row with the same primary key is
    deleted, then the new row is inserted.  The column [timestamp] is not
    in the column list, so it takes its default, the current time. *)
Definition insert_or_replace (now : Z) (i h : string)
    (a : Json) (s : option number) (t : Table) : Table :=
  filter (fun r => negb (has_id i r)) t ++
  [ {| id := i; headline := h; analysis := JSON_roundtrip a;
       risk_score := stored_score s; timestamp := now |} ].

(** app.post("/api/cache", ...): the statement runs with the four values
    of the body, whether or not a score is among them, and the answer is
    success.  The 500 of the handler is for a statement that throws, which
    the model has no case of. *)
Definition post_cache (now : Z) (body : PostBody) (t : Table)
    : Status * Table :=
  (Ok200,
   insert_or_replace now (b_id body) (b_headline body) (b_analysis body)
     (b_risk_score body) t).

(** ORDER BY timestamp DESC.  The only sort key is [timestamp]; rows
    that agree on it come out in the order of the scan, that is in rowid
    order.  A row is placed behind every row that is not older. *)
Fixpoint insert_desc (r : CachedAnalysis.t) (sorted : list CachedAnalysis.t)
    : list CachedAnalysis.t :=
  match sorted with
  | [] => [r]
  | x :: rest =>
      if (timestamp x <? timestamp r)%Z then r :: x :: rest
      else x :: insert_desc r rest
  end.

Definition order_by_timestamp_desc (t : Table) : list CachedAnalysis.t :=
  fold_left (fun acc r => insert_desc r acc) t [].

Definition LIMIT : nat := 50.

(** app.get("/api/cache", ...):
    SELECT * FROM analysis_cache ORDER BY timestamp DESC LIMIT 50 *)
Definition get_cache (t : Table) : list CachedAnalysis.t :=
  firstn LIMIT (order_by_timestamp_desc t).

(** The table after a sequence of POST requests, each with the time at
    which the server handles it. *)
Definition serve_posts (reqs : list (Z * PostBody)) (t : Table) : Table :=
  fold_left (fun acc req => snd (post_cache (fst req) (snd req) acc)) reqs t.

End Server.

(* ------------------------------------------------------------------ *)
(** ** The world the dashboard runs in *)

(** What response.text can be after ai.models.generateContent. *)
Inductive ResponseText :=
| Undefined
| Malformed (s : string)     (* a text that JSON.parse rejects, the empty text included *)
| JsonText (v : Json).       (* a text that JSON.parse accepts, with its value *)

Inductive Reply :=
| Rejected (e : string)      (* the request fails: network, quota, time-out *)
| Answered (text : ResponseText).

(** What the code does not control.  [generateContent n h] is the reply of
    the engine to the request number [n] (from 0) for the headline [h],
    and [latency n] the time in milliseconds that this request takes. *)
Record Env := {
  GEMINI_API_KEY : option string;
  generateContent : nat -> string -> Reply;
  latency : nat -> N;
  rss : option (list NewsItem.t)
}.

(** The cells of useState in App, then the database, the clock, the
    headlines passed to analyzeHeadline so far (latest first) and the lines
    of console.error (latest first). *)
Record State := {
  news : list NewsItem.t;
  cachedAnalyses : list CachedAnalysis.t;
  selectedNews : option NewsItem.t;
  currentAnalysis : Json;
  loading : bool;
  isInitializing : bool;
  db : Server.Table;
  clock : Z;
  analyzed : list string;
  console : list string
}.

Definition initial_state (t : Server.Table) (now : Z) : State :=
  {| news := []; cachedAnalyses := []; selectedNews := None;
     currentAnalysis := JNull; loading := false; isInitializing := true;
     db := t; clock := now; analyzed := []; console := [] |}.

(** A computation that may throw; the state it has reached is kept when
    it throws, as in JavaScript. *)
Inductive Result (A : Type) :=
| Returned (a : A)
| Thrown (e : string).
Arguments Returned {A} a.
Arguments Thrown {A} e.

Definition M (A : Type) : Type := State -> Result A * State.

Definition ret {A} (a : A) : M A := fun s => (Returned a, s).

Definition bind {A B} (m : M A) (k : A -> M B) : M B :=
  fun s =>
    match m s with
    | (Returned a, s') => k a s'
    | (Thrown e, s') => (Thrown e, s')
    end.

Definition throw {A} (e : string) : M A := fun s => (Thrown e, s).

(** try { body } catch (error) { handler error } finally { final } *)
Definition try_catch_finally (body : M unit) (handler : string -> M unit)
    (final : M unit) : M unit :=
  fun s =>
    match body s with
    | (Returned _, s') => final s'
    | (Thrown e, s') => bind (handler e) (fun _ => final) s'
    end.

Definition modify (f : State -> State) : M unit := fun s => (Returned tt, f s).

Definition gets {A} (f : State -> A) : M A := fun s => (Returned (f s), s).

Declare Scope js_scope.
Delimit Scope js_scope with js.
Notation "x <- m ;; k" := (bind m (fun x => k))
  (at level 61, m at next level, right associativity) : js_scope.
Notation "m ;; k" := (bind m (fun _ => k))
  (at level 61, right associativity) : js_scope.
Local Open Scope js_scope.

(** for (const item of items) { await body(item) } *)
Fixpoint for_of {A} (items : list A) (body : A -> M unit) : M unit :=
  match items with
  | [] => ret tt
  | item :: rest => body item ;; for_of rest body
  end.

(** The setters of useState and the effects on the world. *)
Definition setNews (v : list NewsItem.t) : M unit :=
  modify (fun s =>
    {| news := v; cachedAnalyses := cachedAnalyses s;
       selectedNews := selectedNews s; currentAnalysis := currentAnalysis s;
       loading := loading s; isInitializing := isInitializing s;
       db := db s; clock := clock s; analyzed := analyzed s;
       console := console s |}).

Definition setCachedAnalyses (v : list CachedAnalysis.t) : M unit :=
  modify (fun s =>
    {| news := news s; cachedAnalyses := v;
       selectedNews := selectedNews s; currentAnalysis := currentAnalysis s;
       loading := loading s; isInitializing := isInitializing s;
       db := db s; clock := clock s; analyzed := analyzed s;
       console := console s |}).

Definition setSelectedNews (v : option NewsItem.t) : M unit :=
  modify (fun s =>
    {| news := news s; cachedAnalyses := cachedAnalyses s;
       selectedNews := v; currentAnalysis := currentAnalysis s;
       loading := loading s; isInitializing := isInitializing s;
       db := db s; clock := clock s; analyzed := analyzed s;
       console := console s |}).

Definition setCurrentAnalysis (v : Json) : M unit :=
  modify (fun s =>
    {| news := news s; cachedAnalyses := cachedAnalyses s;
       selectedNews := selectedNews s; currentAnalysis := v;
       loading := loading s; isInitializing := isInitializing s;
       db := db s; clock := clock s; analyzed := analyzed s;
       console := console s |}).

Definition setLoading (v : bool) : M unit :=
  modify (fun s =>
    {| news := news s; cachedAnalyses := cachedAnalyses s;
       selectedNews := selectedNews s; currentAnalysis := currentAnalysis s;
       loading := v; isInitializing := isInitializing s;
       db := db s; clock := clock s; analyzed := analyzed s;
       console := console s |}).

Definition setIsInitializing (v : bool) : M unit :=
  modify (fun s =>
    {| news := news s; cachedAnalyses := cachedAnalyses s;
       selectedNews := selectedNews s; currentAnalysis := currentAnalysis s;
       loading := loading s; isInitializing := v;
       db := db s; clock := clock s; analyzed := analyzed s;
       console := console s |}).

Definition set_db (v : Server.Table) : M unit :=
  modify (fun s =>
    {| news := news s; cachedAnalyses := cachedAnalyses s;
       selectedNews := selectedNews s; currentAnalysis := currentAnalysis s;
       loading := loading s; isInitializing := isInitializing s;
       db := v; clock := clock s; analyzed := analyzed s;
       console := console s |}).

(** A call of analyzeHeadline is recorded. *)
Definition record_call (headline : string) : M unit :=
  modify (fun s =>
    {| news := news s; cachedAnalyses := cachedAnalyses s;
       selectedNews := selectedNews s; currentAnalysis := currentAnalysis s;
       loading := loading s; isInitializing := isInitializing s;
       db := db s; clock := clock s;
       analyzed := headline :: analyzed s; console := console s |}).

Definition sleep (ms : N) : M unit :=
  modify (fun s =>
    {| news := news s; cachedAnalyses := cachedAnalyses s;
       selectedNews := selectedNews s; currentAnalysis := currentAnalysis s;
       loading := loading s; isInitializing := isInitializing s;
       db := db s; clock := (clock s + Z.of_N ms)%Z;
       analyzed := analyzed s; console := console s |}).

Definition console_error (msg : string) : M unit :=
  modify (fun s =>
    {| news := news s; cachedAnalyses := cachedAnalyses s;
       selectedNews := selectedNews s; currentAnalysis := currentAnalysis s;
       loading := loading s; isInitializing := isInitializing s;
       db := db s; clock := clock s; analyzed := analyzed s;
       console := msg :: console s |}).

(** Date.now() *)
Definition Date_now : M Z := gets clock.

(** CURRENT_TIMESTAMP: the time in whole seconds. *)
Definition CURRENT_TIMESTAMP (s : State) : Z := (clock s / 1000)%Z.

(* ------------------------------------------------------------------ *)
(** ** The client: services and the component App *)

Section Client.

Variable env : Env.

(** *** src/services/newsService.ts *)

(** fetchNews: GET /api/news answers 500 when the feed cannot be read,
    and the client throws on a response that is not ok. *)
Definition fetchNews : M (list NewsItem.t) :=
  match rss env with
  | Some items => ret items
  | None => throw "Failed to fetch news"
  end.

(** fetchCache: GET /api/cache. *)
Definition fetchCache : M (list CachedAnalysis.t) :=
  gets (fun s => Server.get_cache (db s)).

(** saveToCache: POST /api/cache; the response is awaited and not looked
    at. *)
Definition saveToCache (id headline : string) (analysis : Json)
    (riskScore : option number) : M unit :=
  now <- gets CURRENT_TIMESTAMP ;;
  t <- gets db ;;
  set_db (snd (Server.post_cache now
                 {| Server.b_id := id; Server.b_headline := headline;
                    Server.b_analysis := analysis;
                    Server.b_risk_score := riskScore |} t)).

(** *** src/services/riskAnalyzer.ts *)

(** getAI: throws when the key is undefined or empty. *)
Definition getAI : M unit :=
  match GEMINI_API_KEY env with
  | None => throw "GEMINI_API_KEY is not set"
  | Some EmptyString => throw "GEMINI_API_KEY is not set"
  | Some _ => ret tt
  end.

(** response.text || "{}" *)
Definition text_or_braces (text : ResponseText) : ResponseText :=
  match text with
  | Undefined => JsonText (JObject empty_object)
  | Malformed EmptyString => JsonText (JObject empty_object)
  | other => other
  end.

Definition JSON_parse (text : ResponseText) : M Json :=
  match text with
  | JsonText v => ret v
  | Malformed _ => throw "SyntaxError"
  | Undefined => throw "SyntaxError"
  end.

(** analyzeHeadline.  Every call is recorded in [analyzed]; the number of
    earlier calls selects the reply of the engine. *)
Definition analyzeHeadline (headline : string) : M Json :=
  n <- gets (fun s => List.length (analyzed s)) ;;
  record_call headline ;;
  getAI ;;
  sleep (latency env n) ;;
  match generateContent env n headline with
  | Rejected e => throw e
  | Answered text => JSON_parse (text_or_braces text)
  end.

(** analysis.riskScore: a TypeError when the analysis is null. *)
Definition read_riskScore (analysis : Json) : M (option number) :=
  match fields analysis with
  | Some a => ret (riskScore a)
  | None => throw "TypeError"
  end.

(** *** src/App.tsx: the effect that runs once after mounting *)

(** The body of the loop over toAnalyze. *)
Definition backfill_item (item : NewsItem.t) : M unit :=
  analysis <- analyzeHeadline (NewsItem.headline item) ;;
  score <- read_riskScore analysis ;;
  saveToCache (NewsItem.id item) (NewsItem.headline item) analysis score.

Definition init : M unit :=
  try_catch_finally
    (newsData <- fetchNews ;;
     cacheData <- fetchCache ;;
     setNews newsData ;;
     setCachedAnalyses cacheData ;;
     if (List.length cacheData <? 5)%nat && (0 <? List.length newsData)%nat then
       for_of (firstn 5 newsData) backfill_item ;;
       updatedCache <- fetchCache ;;
       setCachedAnalyses updatedCache
     else ret tt)
    (fun error => console_error "Initialization error:")
    (setIsInitializing false).

(** *** src/App.tsx: handleAnalyze *)

(** `custom-${Date.now()}` *)
Definition custom_id (now : Z) : string :=
  "custom-" ++ NilZero.string_of_int (Z.to_int now).

Definition item_headline (item : NewsItem.t + string) : string :=
  match item with
  | inl n => NewsItem.headline n
  | inr text => text
  end.

Definition item_id (item : NewsItem.t + string) : M string :=
  match item with
  | inl n => ret (NewsItem.id n)
  | inr _ => now <- Date_now ;; ret (custom_id now)
  end.

(** if (typeof item !== 'string') setSelectedNews(item) *)
Definition select_if_news (item : NewsItem.t + string) : M unit :=
  match item with
  | inl n => setSelectedNews (Some n)
  | inr _ => ret tt
  end.

Definition handleAnalyze (item : NewsItem.t + string) : M unit :=
  setLoading true ;;
  let headline := item_headline item in
  id <- item_id item ;;
  try_catch_finally
    (cached <- gets (fun s =>
        find (fun c => (CachedAnalysis.id c =? id)%string) (cachedAnalyses s)) ;;
     match cached with
     | Some c =>
         setCurrentAnalysis (CachedAnalysis.analysis c) ;;
         select_if_news item
     | None =>
         analysis <- analyzeHeadline headline ;;
         setCurrentAnalysis analysis ;;
         score <- read_riskScore analysis ;;
         saveToCache id headline analysis score ;;
         updatedCache <- fetchCache ;;
         setCachedAnalyses updatedCache ;;
         select_if_news item
     end)
    (fun error => console_error "Analysis error:")
    (setLoading false).

(** What the user does, one step after the other. *)
Inductive Action :=
| Click (item : NewsItem.t)
| Submit (customHeadline : string)
| Wait (ms : N).

Definition perform (a : Action) (s : State) : State :=
  match a with
  | Click item => snd (handleAnalyze (inl item) s)
  | Submit text => snd (handleAnalyze (inr text) s)
  | Wait ms => snd (sleep ms s)
  end.

Definition session (actions : list Action) (s : State) : State :=
  fold_left (fun acc a => perform a acc) actions s.

End Client.

(* ------------------------------------------------------------------ *)
(** ** src/App.tsx: the memoised aggregates over cachedAnalyses *)

(** *** globalRiskIndex *)

(** The value of globalRiskIndex: the number 0, or the string that
    toFixed(1) returns. *)
Inductive RiskIndex :=
| Zero
| Fixed1 (text : NumberString).

(** last15.reduce((acc, curr) => acc + curr.risk_score, 0) *)
Definition sum_scores (rows : list CachedAnalysis.t) : number :=
  fold_left (fun acc curr => plus_nullable acc (CachedAnalysis.risk_score curr))
    rows (Number_of_Z 0).

Definition globalRiskIndex (cachedAnalyses : list CachedAnalysis.t) : RiskIndex :=
  match cachedAnalyses with
  | [] => Zero
  | _ =>
      let last15 := firstn 15 cachedAnalyses in
      let sum := sum_scores last15 in
      Fixed1 (toFixed1 (number_div sum
                          (Number_of_Z (Z.of_nat (List.length last15)))))
  end.

(** *** globalRiskLabel *)

(** parseFloat(globalRiskIndex as string): the number 0 prints as 0. *)
Definition parseFloat_index (globalRiskIndex : RiskIndex) : number :=
  match globalRiskIndex with
  | Zero => Number_of_Z 0
  | Fixed1 text => parseFloat text
  end.

Definition globalRiskLabel (globalRiskIndex : RiskIndex) : string :=
  let score := parseFloat_index globalRiskIndex in
  if number_ge score (Number_of_Z 7) then "Elevated Geopolitical Risk"
  else if number_ge score (Number_of_Z 4) then "Moderate Geopolitical Tension"
  else "Low Geopolitical Risk".

(** *** criticalEvents *)

Record CriticalEvent := {
  ev_headline : string;
  ev_score : option number;
  ev_analysis : Json
}.

(** c.risk_score >= 7 *)
Definition is_critical (c : CachedAnalysis.t) : bool :=
  nullable_ge (CachedAnalysis.risk_score c) (Number_of_Z 7).

Definition to_event (c : CachedAnalysis.t) : CriticalEvent :=
  {| ev_headline := CachedAnalysis.headline c;
     ev_score := CachedAnalysis.risk_score c;
     ev_analysis := CachedAnalysis.analysis c |}.

Definition criticalEvents (cachedAnalyses : list CachedAnalysis.t)
    : list CriticalEvent :=
  firstn 5 (map to_event (filter is_critical cachedAnalyses)).

(** *** The title over the analysis: selectedNews?.headline || customHeadline *)

Definition title_shown (s : State) (customHeadline : string) : string :=
  match selectedNews s with
  | Some n =>
      match NewsItem.headline n with
      | EmptyString => customHeadline
      | h => h
      end
  | None => customHeadline
  end.

(** *** Strings *)

(** String.prototype.includes: [sub] occurs in [s] at some position. *)
Fixpoint includes (s sub : string) : bool :=
  String.prefix sub s ||
  match s with
  | EmptyString => false
  | String _ rest => includes rest sub
  end.

(** String.prototype.toLowerCase on a text of ASCII characters: the
    letters A to Z are lowered, no other character changes.  It stands for
    toLowerCase in the runs on such texts. *)
Definition lower_ascii (c : ascii) : ascii :=
  let n := nat_of_ascii c in
  if ((65 <=? n) && (n <=? 90))%nat then ascii_of_nat (n + 32) else c.

Fixpoint toLowerCase_ascii (s : string) : string :=
  match s with
  | EmptyString => EmptyString
  | String c rest => String (lower_ascii c) (toLowerCase_ascii rest)
  end.

Record SectorData := {
  count : nat;
  reason : list (option string)
}.

(** A JavaScript object with string keys, in the order of insertion. *)
Definition Sectors := list (string * SectorData).

Definition no_data : SectorData := {| count := 0; reason := [] |}.

Definition sectors_init : Sectors :=
  [ ("Energy", no_data); ("Defense", no_data); ("Semiconductors", no_data);
    ("Shipping", no_data); ("Banking", no_data); ("Technology", no_data) ].

(** sectors[s].count++;
    if (sectors[s].reason.length < 2) sectors[s].reason.push(consequences) *)
Definition bump (conseq : option string) (d : SectorData) : SectorData :=
  {| count := S (count d);
     reason := if (List.length (reason d) <? 2)%nat
               then reason d ++ [conseq] else reason d |}.

(** The object after sectors[s] has been changed by [f]. *)
Fixpoint update_sector (s : string) (f : SectorData -> SectorData)
    (sectors : Sectors) : Sectors :=
  match sectors with
  | [] => []
  | (k, d) :: rest =>
      if (k =? s)%string then (k, f d) :: rest
      else (k, d) :: update_sector s f rest
  end.

(** sectors[s] *)
Fixpoint get_sector (s : string) (sectors : Sectors) : option SectorData :=
  match sectors with
  | [] => None
  | (k, d) :: rest => if (k =? s)%string then Some d else get_sector s rest
  end.

(** sectors[s].count, 0 for a key that is not there. *)
Definition count_of (s : string) (sectors : Sectors) : nat :=
  match get_sector s sectors with
  | Some d => count d
  | None => O
  end.

(** The industries of a row that forEach can run over: none when the
    analysis is null or has no industries. *)
Definition industries_of (c : CachedAnalysis.t) : option (list string) :=
  match fields (CachedAnalysis.analysis c) with
  | Some a => industries a
  | None => None
  end.

(** analysis.consequences of a row whose analysis is not null. *)
Definition consequences_of (c : CachedAnalysis.t) : option string :=
  match fields (CachedAnalysis.analysis c) with
  | Some a => consequences a
  | None => None
  end.

Module TrendPoint.
Record t := {
  date : Z;
  score : option number
}.
End TrendPoint.

Module MapPoint.
Record t := {
  name : option string;
  score : option number
}.
End MapPoint.

(** Array.prototype.sort(compare): a stable sort.  An element goes in
    front of the first one that compare puts behind it. *)
Fixpoint insert_sorted {A} (compare : A -> A -> Z) (p : A) (sorted : list A)
    : list A :=
  match sorted with
  | [] => [p]
  | x :: rest =>
      if (compare p x <? 0)%Z then p :: x :: rest
      else x :: insert_sorted compare p rest
  end.

Definition sort_with {A} (compare : A -> A -> Z) (l : list A) : list A :=
  fold_left (fun acc p => insert_sorted compare p acc) l [].

Definition to_point (c : CachedAnalysis.t) : TrendPoint.t :=
  {| TrendPoint.date := CachedAnalysis.timestamp c;
     TrendPoint.score := CachedAnalysis.risk_score c |}.

(** d3.scaleThreshold().domain([3, 7]).range([green, yellow, red]): no
    colour for a score that is null, undefined or NaN. *)
Definition colorScale (x : option number) : option string :=
  match x with
  | None => None
  | Some S754_nan => None
  | Some x =>
      Some (if number_lt x (Number_of_Z 3) then "#10b981"
            else if number_lt x (Number_of_Z 7) then "#f59e0b"
            else "#ef4444")
  end.

(** What the function given to attr('fill', ...) does: it throws, it
    returns undefined, or it returns a colour. *)
Inductive FillResult :=
| FillThrows
| FillUndefined
| FillColor (color : string).

Definition fill_of_score (score : option number) : FillResult :=
  match colorScale score with
  | Some color => FillColor color
  | None => FillUndefined
  end.

Section BuiltIns.

(** String.prototype.toLowerCase, which follows the Unicode tables. *)
Variable toLowerCase : string -> string.

(** new Date(text).getTime() for the text of the column timestamp that
    stands for the second [date]: the text is read as a local time. *)
Variable getTime : Z -> Z.

(** *** sectorImpacts *)

Definition sector_matches (ind s : string) : bool :=
  includes (toLowerCase ind) (toLowerCase s).

(** Object.keys(sectors).forEach(s => { if (...) { ... } }) *)
Definition visit_industry (conseq : option string) (sectors : Sectors)
    (ind : string) : Sectors :=
  fold_left
    (fun acc s =>
       if sector_matches ind s then update_sector s (bump conseq) acc else acc)
    (map fst sectors) sectors.

(** The body of cachedAnalyses.forEach; [None] is the TypeError of
    reading industries off null or of calling forEach on an industries
    that is undefined. *)
Definition visit_row (sectors : Sectors) (c : CachedAnalysis.t)
    : option Sectors :=
  match fields (CachedAnalysis.analysis c) with
  | None => None
  | Some analysis =>
      match industries analysis with
      | None => None
      | Some inds =>
          Some (fold_left (visit_industry (consequences analysis)) inds sectors)
      end
  end.

Fixpoint visit_rows (sectors : Sectors) (rows : list CachedAnalysis.t)
    : option Sectors :=
  match rows with
  | [] => Some sectors
  | c :: rest =>
      match visit_row sectors c with
      | None => None
      | Some sectors' => visit_rows sectors' rest
      end
  end.

Definition sectorImpacts (cachedAnalyses : list CachedAnalysis.t)
    : option Sectors :=
  match visit_rows sectors_init cachedAnalyses with
  | None => None
  | Some sectors => Some (filter (fun e => (0 <? count (snd e))%nat) sectors)
  end.

(** The sum over the rows of the number of their industries that match
    the sector [s]. *)
Definition matches_of (s : string) (rows : list CachedAnalysis.t) : nat :=
  list_sum
    (map (fun c =>
            match industries_of c with
            | Some inds => List.length (filter (fun ind => sector_matches ind s) inds)
            | None => O
            end) rows).

(** *** trendData *)

(** (a, b) => new Date(a.date).getTime() - new Date(b.date).getTime() *)
Definition by_date (a b : TrendPoint.t) : Z :=
  (getTime (TrendPoint.date a) - getTime (TrendPoint.date b))%Z.

Definition trendData (cachedAnalyses : list CachedAnalysis.t)
    : list TrendPoint.t :=
  sort_with by_date (map to_point cachedAnalyses).

(** Points in ascending order of the time read off their date. *)
Definition earlier_first (a b : TrendPoint.t) : Prop :=
  (getTime (TrendPoint.date a) <= getTime (TrendPoint.date b))%Z.

(** The points whose date reads as the time [k]. *)
Definition on_time (k : Z) (p : TrendPoint.t) : bool :=
  (getTime (TrendPoint.date p) =? k)%Z.

(** *** mapData and the fill of a country in components/GlobalMap.tsx *)

(** mapData; [None] is the TypeError of reading region off an analysis
    that is null. *)
Fixpoint mapData (cachedAnalyses : list CachedAnalysis.t)
    : option (list MapPoint.t) :=
  match cachedAnalyses with
  | [] => Some []
  | c :: rest =>
      match fields (CachedAnalysis.analysis c) with
      | None => None
      | Some analysis =>
          match mapData rest with
          | None => None
          | Some points =>
              Some ({| MapPoint.name := region analysis;
                       MapPoint.score := riskScore analysis |} :: points)
          end
      end
  end.

(** The test inside analyzedCountries.find. *)
Definition country_matches (countryName name : string) : bool :=
  includes (toLowerCase countryName) (toLowerCase name) ||
  includes (toLowerCase name) (toLowerCase countryName).

(** analyzedCountries.find(...), then the colour of the match.  The test
    throws on a point whose name is undefined; the scale returns undefined
    for a score it cannot place. *)
Fixpoint fill (countryName : string) (analyzedCountries : list MapPoint.t)
    : FillResult :=
  match analyzedCountries with
  | [] => FillColor "#27272a"
  | c :: rest =>
      match MapPoint.name c with
      | None => FillThrows
      | Some name =>
          if country_matches countryName name then
            fill_of_score (MapPoint.score c)
          else fill countryName rest
      end
  end.

End BuiltIns.

(* ------------------------------------------------------------------ *)
(** ** Orders on rows, predicates and sample data for the concrete runs *)

(** Most recent first. *)
Definition newer_first (a b : CachedAnalysis.t) : Prop :=
  (CachedAnalysis.timestamp b <= CachedAnalysis.timestamp a)%Z.

(** Most recent first, rows of one timestamp by ascending identity. *)
Definition newer_first_then_id (a b : CachedAnalysis.t) : Prop :=
  (CachedAnalysis.timestamp b < CachedAnalysis.timestamp a)%Z \/
  (CachedAnalysis.timestamp b = CachedAnalysis.timestamp a /\
   String.leb (CachedAnalysis.id a) (CachedAnalysis.id b) = true).

Definition at_timestamp (k : Z) (r : CachedAnalysis.t) : bool :=
  (CachedAnalysis.timestamp r =? k)%Z.

(** The rows that stand before a new row of timestamp [now] whose
    identity is [i]: the rows of other identities that are not older. *)
Definition not_older_than (now : Z) (i : string) (r : CachedAnalysis.t) : bool :=
  negb (Server.has_id i r) && (now <=? CachedAnalysis.timestamp r)%Z.

(** At most one row for every identity. *)
Definition one_row_per_id (t : Server.Table) : Prop :=
  forall i, (List.length (filter (Server.has_id i) t) <= 1)%nat.

(** The row that a POST with these values writes at the time [now]. *)
Definition row_written (now : Z) (i h : string) (a : Json)
    (s : option number) : CachedAnalysis.t :=
  {| CachedAnalysis.id := i; CachedAnalysis.headline := h;
     CachedAnalysis.analysis := JSON_roundtrip a;
     CachedAnalysis.risk_score := Server.stored_score s;
     CachedAnalysis.timestamp := now |}.

(** The scores of the rows are the whole numbers [zs], in this order. *)
Definition whole_scores (zs : list Z) (rows : list CachedAnalysis.t) : Prop :=
  map CachedAnalysis.risk_score rows = map (fun z => Some (Number_of_Z z)) zs.

Definition Zsum (zs : list Z) : Z := fold_right Z.add 0%Z zs.

(** Two numbers are the same value of the type. *)
Definition number_same (x y : number) : bool :=
  match x, y with
  | S754_zero a, S754_zero b => Bool.eqb a b
  | S754_infinity a, S754_infinity b => Bool.eqb a b
  | S754_nan, S754_nan => true
  | S754_finite s m e, S754_finite s' m' e' =>
      Bool.eqb s s' && Pos.eqb m m' && Z.eqb e e'
  | _, _ => false
  end.

(** The whole numbers from [lo] on, [n] of them. *)
Definition Zrange (lo : Z) (n : nat) : list Z :=
  map (fun k => (lo + Z.of_nat k)%Z) (seq 0 n).

(** The sum of two whole numbers is the whole number that is their sum. *)
Definition sum_is_exact (a b : Z) : bool :=
  number_same (number_add (Number_of_Z a) (Number_of_Z b))
              (Number_of_Z (a + b)).

(** The quotient of two whole numbers prints as the quotient rounded to
    tenths, half a tenth going up. *)
Definition quotient_is_rounded (a n : Z) : bool :=
  match toFixed1 (number_div (Number_of_Z a) (Number_of_Z n)) with
  | Numeral false tenths => (tenths =? (20 * a + n) / (2 * n))%Z
  | _ => false
  end.

(** A numeral reads back as a number that compares with a whole bound as
    its tenths do. *)
Definition numeral_compares (bound tenths : Z) : bool :=
  Bool.eqb (number_ge (parseFloat (Numeral false tenths)) (Number_of_Z bound))
           (10 * bound <=? tenths)%Z.

(** A whole number compares with 7 as a number as it does as an integer. *)
Definition score_compares (z : Z) : bool :=
  Bool.eqb (number_ge (Number_of_Z z) (Number_of_Z 7)) (7 <=? z)%Z.

(** The column risk_score repeats the riskScore of the stored analysis:
    both are the same number, or the column is NULL and the analysis has
    no riskScore to read. *)
Definition score_of_analysis (v : Json) : option number :=
  match fields v with
  | Some a => riskScore a
  | None => None
  end.

Definition scores_agree (t : Server.Table) : Prop :=
  Forall (fun r =>
            CachedAnalysis.risk_score r =
            score_of_analysis (CachedAnalysis.analysis r)) t.

(** The snapshot is what GET /api/cache returns now. *)
Definition in_sync (s : State) : Prop :=
  cachedAnalyses s = Server.get_cache (db s).

(** A POST request for the identity [i]. *)
Definition writes_id (i : string) (req : Z * Server.PostBody) : bool :=
  (Server.b_id (snd req) =? i)%string.

(** The identity under which handleAnalyze looks a request up and saves
    it. *)
Definition request_id (item : NewsItem.t + string) (s : State) : string :=
  match item with
  | inl n => NewsItem.id n
  | inr _ => custom_id (clock s)
  end.

(** selectedNews after a request that did not throw. *)
Definition selected_after (item : NewsItem.t + string) (s : State)
    : option NewsItem.t :=
  match item with
  | inl n => Some n
  | inr _ => selectedNews s
  end.

(** The actions that are requests. *)
Definition is_request (a : Action) : bool :=
  match a with
  | Wait _ => false
  | _ => true
  end.

(** Every saved reason list has min(2, count) entries. *)
Definition reasons_capped (sectors : Sectors) : Prop :=
  Forall (fun e => List.length (reason (snd e)) = Nat.min 2 (count (snd e)))
         sectors.

Definition string_of_nat (k : nat) : string :=
  NilZero.string_of_uint (Nat.to_uint k).

Definition sample_analysis (score : Z) (inds : list string) : GeopoliticalAnalysis :=
  {| riskScore := Some (Number_of_Z score); riskLevel := Some "Medium";
     region := Some "Red Sea"; entities := Some ["Suez Canal Authority"];
     industries := Some inds;
     consequences := Some "Freight rates rise";
     reasoning := Some "Rerouting around the Cape";
     marketImpact := Some {| bullish := ["Oil"]; bearish := ["Airlines"] |};
     scenarios := Some {| bestCase := "Calm"; baseCase := "Delays";
                          worstCase := "Closure" |} |}.

(** An object with one key: riskScore: 3. *)
Definition score_only : GeopoliticalAnalysis :=
  {| riskScore := Some (Number_of_Z 3); riskLevel := None; region := None;
     entities := None; industries := None; consequences := None;
     reasoning := None; marketImpact := None; scenarios := None |}.

(** The number 7.25, which a double holds exactly. *)
Definition seven_and_a_quarter : number :=
  number_div (Number_of_Z 29) (Number_of_Z 4).

Definition sample_item (k : nat) : NewsItem.t :=
  {| NewsItem.id := "guid-" ++ string_of_nat k;
     NewsItem.headline := "Headline " ++ string_of_nat k;
     NewsItem.source := "Google News";
     NewsItem.date := "Tue, 03 Nov 2026 08:00:00 GMT";
     NewsItem.link := "https://news.example/" ++ string_of_nat k |}.

Definition sample_body (i : string) (score : Z) : Server.PostBody :=
  {| Server.b_id := i; Server.b_headline := "Headline";
     Server.b_analysis := JObject (sample_analysis score ["Shipping"]);
     Server.b_risk_score := Some (Number_of_Z score) |}.

Definition sample_row (i : string) (score ts : Z) (inds : list string)
    : CachedAnalysis.t :=
  {| CachedAnalysis.id := i; CachedAnalysis.headline := "Headline";
     CachedAnalysis.analysis := JObject (sample_analysis score inds);
     CachedAnalysis.risk_score := Some (Number_of_Z score);
     CachedAnalysis.timestamp := ts |}.

(** A row whose score is any number. *)
Definition scored_row (i : string) (score : number) (ts : Z) : CachedAnalysis.t :=
  {| CachedAnalysis.id := i; CachedAnalysis.headline := "Headline";
     CachedAnalysis.analysis :=
       JObject {| riskScore := Some score; riskLevel := None; region := None;
                  entities := None; industries := None; consequences := None;
                  reasoning := None; marketImpact := None; scenarios := None |};
     CachedAnalysis.risk_score := Some score;
     CachedAnalysis.timestamp := ts |}.

(** An engine that answers every request after one second; the score of
    its answer changes with the number of the request. *)
Definition steady_env : Env :=
  {| GEMINI_API_KEY := Some "key";
     generateContent := fun n _ =>
       Answered (JsonText (JObject
         (sample_analysis (1 + Z.of_nat n mod 10) ["Shipping"])));
     latency := fun _ => 1000%N;
     rss := Some (map sample_item (seq 0 8)) |}.

(** An engine whose first request fails and whose later ones succeed. *)
Definition flaky_env : Env :=
  {| GEMINI_API_KEY := Some "key";
     generateContent := fun n _ =>
       match n with
       | O => Rejected "503"
       | _ => Answered (JsonText (JObject (sample_analysis 6 ["Energy"])))
       end;
     latency := fun _ => 1000%N;
     rss := Some (map sample_item (seq 0 8)) |}.

(** An engine that answers with the same text, whatever the headline. *)
Definition fixed_env (text : ResponseText) : Env :=
  {| GEMINI_API_KEY := Some "key";
     generateContent := fun _ _ => Answered text;
     latency := fun _ => 1000%N;
     rss := Some (map sample_item (seq 0 8)) |}.

(** A reading of the date text that keeps the order of the seconds, as
    in a zone without a change of offset. *)
Definition getTime_utc (date : Z) : Z := (date * 1000)%Z.

(** A reading in a zone whose clocks go forward by one hour at the second
    [gap]: the texts of the hour that is skipped are read with the old
    offset, the later ones with the new offset. *)
Definition getTime_spring_forward (gap date : Z) : Z :=
  if (date <? gap + 3600)%Z then (date * 1000)%Z
  else ((date - 3600) * 1000)%Z.

(* ================================================================== *)
(** * Properties *)

(* ------------------------------------------------------------------ *)
(** ** The table: one row per identity *)

Section StoreFacts.
Import CachedAnalysis.
Import Server.

Lemma has_id_new now i h a s :
  has_id i {| id := i; headline := h; analysis := a; risk_score := s;
              timestamp := now |} = true.
Proof. unfold has_id; simpl. apply String.eqb_refl. Qed.

Lemma filter_has_id_removed i t :
  filter (has_id i) (filter (fun r => negb (has_id i r)) t) = [].
Proof.
  induction t as [|r t IH]; simpl; [reflexivity|].
  destruct (has_id i r) eqn:E; simpl; [assumption|].
  rewrite E. assumption.
Qed.

Lemma filter_has_id_other i j t :
  i <> j ->
  filter (has_id j) (filter (fun r => negb (has_id i r)) t) = filter (has_id j) t.
Proof.
  intros Hij. induction t as [|r t IH]; simpl; [reflexivity|].
  destruct (has_id i r) eqn:Ei; simpl.
  - destruct (has_id j r) eqn:Ej; [|assumption].
    unfold has_id in Ei, Ej.
    apply String.eqb_eq in Ei. apply String.eqb_eq in Ej. congruence.
  - destruct (has_id j r); [f_equal|]; assumption.
Qed.

Lemma filter_idem {A} (p : A -> bool) l : filter p (filter p l) = filter p l.
Proof.
  induction l as [|x l IH]; simpl; [reflexivity|].
  destruct (p x) eqn:E; simpl; [rewrite E; f_equal|]; assumption.
Qed.

(** The rows of identity [i] after the upsert: the new row alone. *)
Lemma insert_or_replace_own now i h a s t :
  filter (has_id i) (insert_or_replace now i h a s t) =
  [ {| id := i; headline := h; analysis := JSON_roundtrip a;
       risk_score := stored_score s; timestamp := now |} ].
Proof.
  unfold insert_or_replace. rewrite filter_app, filter_has_id_removed.
  simpl. rewrite has_id_new. reflexivity.
Qed.

Lemma insert_or_replace_other now i h a s t j :
  i <> j ->
  filter (has_id j) (insert_or_replace now i h a s t) = filter (has_id j) t.
Proof.
  intros Hij. unfold insert_or_replace.
  rewrite filter_app, filter_has_id_other by assumption. simpl.
  unfold has_id at 2; simpl.
  destruct (String.eqb_spec i j); [contradiction|]. apply app_nil_r.
Qed.

Lemma insert_or_replace_rest now i h a s t :
  filter (fun r => negb (has_id i r)) (insert_or_replace now i h a s t) =
  filter (fun r => negb (has_id i r)) t.
Proof.
  unfold insert_or_replace. rewrite filter_app, filter_idem. simpl.
  rewrite has_id_new. simpl. apply app_nil_r.
Qed.

Lemma post_cache_keeps_unique now body t :
  one_row_per_id t -> one_row_per_id (snd (post_cache now body t)).
Proof.
  intros Inv j. unfold post_cache. cbn [snd].
  destruct (String.eqb_spec (b_id body) j) as [<-|Hne].
  - rewrite insert_or_replace_own. simpl. lia.
  - rewrite insert_or_replace_other by assumption. apply Inv.
Qed.

Lemma serve_posts_keeps_unique reqs : forall t,
  one_row_per_id t -> one_row_per_id (serve_posts reqs t).
Proof.
  unfold serve_posts.
  induction reqs as [|[now body] reqs IH]; intros t Inv; simpl; [assumption|].
  apply IH. apply post_cache_keeps_unique. assumption.
Qed.

Lemma one_row_per_id_NoDup t : one_row_per_id t -> NoDup (map id t).
Proof.
  induction t as [|r t IH]; intros Inv; simpl; constructor.
  - intros Hin. apply in_map_iff in Hin. destruct Hin as [r' [Hid Hin']].
    specialize (Inv (id r)). simpl in Inv.
    unfold has_id at 1 in Inv. rewrite String.eqb_refl in Inv. simpl in Inv.
    assert (In r' (filter (has_id (id r)) t)) as Hf.
    { apply filter_In. split; [assumption|].
      unfold has_id. rewrite Hid. apply String.eqb_refl. }
    destruct (filter (has_id (id r)) t); [contradiction|simpl in Inv; lia].
  - apply IH. intros j. specialize (Inv j). simpl in Inv.
    destruct (has_id j r); simpl in Inv; lia.
Qed.

(** C3.  Starting from the empty table, after any sequence of POST
    /api/cache requests no two rows have the same identity, and every
    identity has at most one row.  A request, with or without a score, then
    leaves exactly one row for its identity, the row it wrote, and does not
    touch the rows of the other identities; sending the same request once
    more (at any later time) again leaves exactly one row for it. *)
Theorem store_one_record_per_identity :
  forall (reqs : list (Z * PostBody)),
    let t := serve_posts reqs [] in
    NoDup (map id t) /\
    (forall i, (List.length (filter (has_id i) t) <= 1)%nat) /\
    forall now now' i h a s,
      let body := {| b_id := i; b_headline := h; b_analysis := a;
                     b_risk_score := s |} in
      let t1 := snd (post_cache now body t) in
      let t2 := snd (post_cache now' body t1) in
      filter (has_id i) t1 =
        [ {| id := i; headline := h; analysis := JSON_roundtrip a;
             risk_score := stored_score s; timestamp := now |} ] /\
      filter (fun r => negb (has_id i r)) t1 =
        filter (fun r => negb (has_id i r)) t /\
      List.length (filter (has_id i) t2) = 1%nat /\
      List.length t2 = List.length t1 /\
      NoDup (map id t2).
Proof.
  intros reqs t.
  assert (one_row_per_id t) as Inv.
  { apply serve_posts_keeps_unique. intros i. simpl. lia. }
  split; [apply one_row_per_id_NoDup; assumption|].
  split; [exact Inv|].
  intros now now' i h a s body t1 t2.
  unfold t2, t1, post_cache, body; simpl.
  repeat split.
  - apply insert_or_replace_own.
  - apply insert_or_replace_rest.
  - rewrite insert_or_replace_own. reflexivity.
  - unfold insert_or_replace at 1. rewrite insert_or_replace_rest.
    unfold insert_or_replace. rewrite !length_app. reflexivity.
  - apply one_row_per_id_NoDup.
    apply (post_cache_keeps_unique now' body).
    apply (post_cache_keeps_unique now body). exact Inv.
Qed.

End StoreFacts.


(* ------------------------------------------------------------------ *)
(** ** The table: timestamps and the order of GET /api/cache *)

Section OrderFacts.
Import CachedAnalysis.
Import Server.

Lemma filter_none {A} (p : A -> bool) l :
  (forall y, In y l -> p y = false) -> filter p l = [].
Proof.
  induction l as [|x l IH]; intros H; simpl; [reflexivity|].
  rewrite (H x (or_introl eq_refl)). apply IH.
  intros y Hy. apply H. right. assumption.
Qed.

Lemma insert_desc_perm r l : Permutation (insert_desc r l) (r :: l).
Proof.
  induction l as [|x l IH]; simpl; [reflexivity|].
  destruct (timestamp x <? timestamp r)%Z; [reflexivity|].
  rewrite IH. apply perm_swap.
Qed.

Lemma fold_insert_perm t : forall acc,
  Permutation (fold_left (fun acc r => insert_desc r acc) t acc) (acc ++ t).
Proof.
  induction t as [|r t IH]; intros acc; simpl.
  - rewrite app_nil_r. reflexivity.
  - rewrite IH, insert_desc_perm. apply Permutation_middle.
Qed.

Lemma order_perm t : Permutation (order_by_timestamp_desc t) t.
Proof. unfold order_by_timestamp_desc. apply (fold_insert_perm t []). Qed.

Lemma insert_desc_sorted r l :
  StronglySorted newer_first l -> StronglySorted newer_first (insert_desc r l).
Proof.
  induction l as [|x l IH]; intros Hs; simpl.
  - constructor; constructor.
  - apply StronglySorted_inv in Hs. destruct Hs as [Hl Hx].
    destruct (Z.ltb_spec (timestamp x) (timestamp r)) as [Hlt|Hge].
    + constructor; [constructor; assumption|].
      constructor; [unfold newer_first; lia|].
      eapply Forall_impl; [|exact Hx].
      unfold newer_first. intros; lia.
    + constructor; [apply IH; assumption|].
      eapply Permutation_Forall; [symmetry; apply insert_desc_perm|].
      constructor; [unfold newer_first; lia|assumption].
Qed.

Lemma fold_insert_sorted t : forall acc,
  StronglySorted newer_first acc ->
  StronglySorted newer_first (fold_left (fun acc r => insert_desc r acc) t acc).
Proof.
  induction t as [|r t IH]; intros acc Hs; simpl; [assumption|].
  apply IH. apply insert_desc_sorted. assumption.
Qed.

Lemma order_sorted t : StronglySorted newer_first (order_by_timestamp_desc t).
Proof. apply fold_insert_sorted. constructor. Qed.

(** A row goes behind the rows of its own timestamp. *)
Lemma insert_desc_stable k r l :
  StronglySorted newer_first l ->
  filter (at_timestamp k) (insert_desc r l) =
  filter (at_timestamp k) l ++ filter (at_timestamp k) [r].
Proof.
  induction l as [|x l IH]; intros Hs; [reflexivity|].
  apply StronglySorted_inv in Hs. destruct Hs as [Hl Hx].
  cbn [insert_desc].
  destruct (Z.ltb_spec (timestamp x) (timestamp r)) as [Hlt|Hge].
  - remember (x :: l) as xl eqn:Exl. cbn [filter].
    destruct (at_timestamp k r) eqn:Hr; [|rewrite app_nil_r; reflexivity].
    assert (filter (at_timestamp k) xl = []) as ->; [|reflexivity].
    apply filter_none. intros y Hy. subst xl. unfold at_timestamp in *.
    apply Z.eqb_eq in Hr.
    assert (timestamp y <= timestamp x)%Z.
    { destruct Hy as [->|Hy]; [lia|].
      rewrite Forall_forall in Hx. apply (Hx y Hy). }
    destruct (Z.eqb_spec (timestamp y) k); [lia|reflexivity].
  - cbn [filter]. rewrite (IH Hl).
    destruct (at_timestamp k x); reflexivity.
Qed.

Lemma fold_insert_stable k t : forall acc,
  StronglySorted newer_first acc ->
  filter (at_timestamp k) (fold_left (fun acc r => insert_desc r acc) t acc) =
  filter (at_timestamp k) acc ++ filter (at_timestamp k) t.
Proof.
  induction t as [|r t IH]; intros acc Hs; simpl fold_left.
  - simpl. rewrite app_nil_r. reflexivity.
  - rewrite IH by (apply insert_desc_sorted; assumption).
    rewrite insert_desc_stable by assumption.
    rewrite <- app_assoc. change (r :: t) with ([r] ++ t).
    rewrite (filter_app _ [r] t). reflexivity.
Qed.

Lemma order_stable k t :
  filter (at_timestamp k) (order_by_timestamp_desc t) = filter (at_timestamp k) t.
Proof.
  unfold order_by_timestamp_desc.
  rewrite fold_insert_stable by constructor. reflexivity.
Qed.

Lemma order_snoc t r :
  order_by_timestamp_desc (t ++ [r]) = insert_desc r (order_by_timestamp_desc t).
Proof. unfold order_by_timestamp_desc. rewrite fold_left_app. reflexivity. Qed.

End OrderFacts.

Section ListRecent.
Import CachedAnalysis.
Import Server.

Lemma in_firstn {A} n : forall (l : list A) x, In x (firstn n l) -> In x l.
Proof.
  induction n as [|n IH]; intros [|y l] x H; simpl in *; try contradiction.
  destruct H as [->|H]; [left; reflexivity|right; apply IH; assumption].
Qed.

Lemma firstn_sorted {A} (R : A -> A -> Prop) n : forall l,
  StronglySorted R l -> StronglySorted R (firstn n l).
Proof.
  induction n as [|n IH]; intros l Hs; [constructor|].
  destruct l as [|x l]; [constructor|].
  apply StronglySorted_inv in Hs. destruct Hs as [Hl Hx].
  simpl. constructor; [apply IH; assumption|].
  rewrite Forall_forall in *. intros y Hy.
  apply Hx. eapply in_firstn; eassumption.
Qed.

(** C5, as the code has it.  GET /api/cache returns at most 50 rows, the
    first 50 of the table in descending order of timestamp, so the most
    recent come first; rows of one timestamp stand in the order in which
    they were inserted.  The identity plays no part in the order. *)
Theorem get_cache_recent_first :
  forall (t : Table),
    let rows := get_cache t in
    List.length rows = Nat.min 50 (List.length t) /\
    StronglySorted newer_first rows /\
    exists full,
      rows = firstn 50 full /\
      Permutation full t /\
      StronglySorted newer_first full /\
      forall k, filter (at_timestamp k) full = filter (at_timestamp k) t.
Proof.
  intros t rows. unfold rows, get_cache, LIMIT.
  split; [|split].
  - rewrite length_firstn. f_equal.
    apply Permutation_length, order_perm.
  - apply firstn_sorted, order_sorted.
  - exists (order_by_timestamp_desc t).
    split; [reflexivity|]. split; [apply order_perm|].
    split; [apply order_sorted|]. intros k. apply order_stable.
Qed.

(** C5, counterexample.  Two records are written within one second, first
    the one of identity b, then the one of identity a.  The list comes back
    as b, a: rows of equal timestamp are not in ascending order of
    identity. *)
Lemma get_cache_ties_not_by_identity :
  let t := serve_posts [(100%Z, sample_body "b" 5); (100%Z, sample_body "a" 5)] [] in
  map id (get_cache t) = ["b"; "a"] /\
  map timestamp (get_cache t) = [100%Z; 100%Z] /\
  ~ StronglySorted newer_first_then_id (get_cache t).
Proof.
  cbv zeta. split; [reflexivity|]. split; [reflexivity|].
  intros Hs.
  change (StronglySorted newer_first_then_id
            [sample_row "b" 5 100 ["Shipping"]; sample_row "a" 5 100 ["Shipping"]])
    in Hs.
  apply StronglySorted_inv in Hs. destruct Hs as [_ Hx].
  inversion Hx as [|? ? Hab _]; subst.
  unfold newer_first_then_id in Hab; simpl in Hab.
  destruct Hab as [Hlt|[_ Hle]]; [lia|].
  vm_compute in Hle. discriminate.
Qed.

(** C6, as the code has it.  A POST leaves, for its identity, one row
    whose timestamp is the time of this POST, whether or not the identity
    had a row before and whether or not the POST carries a score; the rows
    of the other identities are as they were. *)
Theorem post_cache_stamps_current_time :
  forall (now : Z) (i h : string) (a : Json) (s : option number) (t : Table),
    let t' := snd (post_cache now
                     {| b_id := i; b_headline := h; b_analysis := a;
                        b_risk_score := s |} t) in
    map timestamp (filter (has_id i) t') = [now] /\
    filter (fun r => negb (has_id i r)) t' = filter (fun r => negb (has_id i r)) t.
Proof.
  intros now i h a s t t'. unfold t', post_cache; simpl. split.
  - rewrite insert_or_replace_own. reflexivity.
  - apply insert_or_replace_rest.
Qed.

(** C6, counterexample.  A record for identity x is written at second 100
    and written again at second 250: its timestamp is then 250, not the
    100 of the first insertion. *)
Lemma overwrite_changes_timestamp :
  let t1 := serve_posts [(100%Z, sample_body "x" 5)] [] in
  let t2 := serve_posts [(250%Z, sample_body "x" 5)] t1 in
  map timestamp (filter (has_id "x") t1) = [100%Z] /\
  map timestamp (filter (has_id "x") t2) = [250%Z] /\
  List.length t2 = 1%nat.
Proof. cbv zeta. repeat split. Qed.

End ListRecent.


(* ------------------------------------------------------------------ *)
(** ** The aggregates: globalRiskIndex and criticalEvents *)

Section IndexFacts.
Import CachedAnalysis.
Import Server.

Lemma number_same_eq x y : number_same x y = true -> x = y.
Proof.
  destruct x as [a|a| |s m e], y as [b|b| |s' m' e']; simpl;
    try discriminate; try reflexivity.
  - intros H. apply Bool.eqb_prop in H. congruence.
  - intros H. apply Bool.eqb_prop in H. congruence.
  - intros H. apply andb_true_iff in H. destruct H as [H He].
    apply andb_true_iff in H. destruct H as [Hs Hm].
    apply Bool.eqb_prop in Hs. apply Pos.eqb_eq in Hm. apply Z.eqb_eq in He.
    congruence.
Qed.

Lemma Zrange_in lo n z :
  (lo <= z < lo + Z.of_nat n)%Z -> In z (Zrange lo n).
Proof.
  intros H. unfold Zrange. apply in_map_iff.
  exists (Z.to_nat (z - lo)). split; [lia|].
  apply in_seq. lia.
Qed.

Lemma forallb_Zrange (f : Z -> bool) lo n :
  forallb f (Zrange lo n) = true ->
  forall z, (lo <= z < lo + Z.of_nat n)%Z -> f z = true.
Proof.
  intros H z Hz. rewrite forallb_forall in H. apply H, Zrange_in, Hz.
Qed.

Lemma small_sums_checked :
  forallb (fun a => forallb (sum_is_exact a) (Zrange 0 11)) (Zrange 0 151)
  = true.
Proof. vm_compute. reflexivity. Qed.

Lemma small_quotients_checked :
  forallb (fun a => forallb (quotient_is_rounded a) (Zrange 1 15))
          (Zrange 0 151) = true.
Proof. vm_compute. reflexivity. Qed.

Lemma small_sums a b :
  (0 <= a <= 150)%Z -> (0 <= b <= 10)%Z ->
  number_add (Number_of_Z a) (Number_of_Z b) = Number_of_Z (a + b).
Proof.
  intros Ha Hb.
  pose proof (forallb_Zrange _ 0 151 small_sums_checked a ltac:(lia)) as H.
  cbv beta in H.
  pose proof (forallb_Zrange _ 0 11 H b ltac:(lia)) as H'.
  apply number_same_eq. exact H'.
Qed.

Lemma small_quotients a n :
  (0 <= a <= 150)%Z -> (1 <= n <= 15)%Z ->
  toFixed1 (number_div (Number_of_Z a) (Number_of_Z n)) =
  Numeral false ((20 * a + n) / (2 * n)).
Proof.
  intros Ha Hn.
  pose proof (forallb_Zrange _ 0 151 small_quotients_checked a ltac:(lia))
    as H.
  cbv beta in H.
  pose proof (forallb_Zrange _ 1 15 H n ltac:(lia)) as H'.
  unfold quotient_is_rounded in H'.
  destruct (toFixed1 (number_div (Number_of_Z a) (Number_of_Z n)))
    as [[|] tenths|x]; try discriminate.
  apply Z.eqb_eq in H'. rewrite H'. reflexivity.
Qed.

Lemma fold_whole_scores zs : forall rows acc,
  whole_scores zs rows ->
  Forall (fun z => (0 <= z <= 10)%Z) zs ->
  (0 <= acc)%Z -> (acc + 10 * Z.of_nat (List.length zs) <= 150)%Z ->
  fold_left (fun acc curr => plus_nullable acc (risk_score curr)) rows
    (Number_of_Z acc) = Number_of_Z (acc + Zsum zs).
Proof.
  unfold whole_scores.
  induction zs as [|z zs IH]; intros rows acc Hrows Hzs Hacc Hbound.
  - destruct rows; [|discriminate]. cbn [fold_left Zsum fold_right].
    f_equal. lia.
  - destruct rows as [|r rows]; [discriminate|].
    cbn [map] in Hrows. injection Hrows as Hr Hrows.
    inversion Hzs as [|? ? Hz Hzs']; subst.
    cbn [List.length] in Hbound.
    cbn [fold_left Zsum fold_right]. rewrite Hr.
    change (plus_nullable (Number_of_Z acc) (Some (Number_of_Z z)))
      with (number_add (Number_of_Z acc) (Number_of_Z z)).
    rewrite small_sums by lia.
    rewrite (IH rows (acc + z)%Z Hrows Hzs') by lia.
    f_equal. unfold Zsum. lia.
Qed.

Lemma half_up_nearest sum n :
  (0 < n)%Z -> (Z.abs (20 * sum - 2 * n * ((20 * sum + n) / (2 * n))) <= n)%Z.
Proof.
  intros Hn.
  pose proof (Z.div_mod (20 * sum + n) (2 * n) ltac:(lia)) as Hdm.
  pose proof (Z.mod_pos_bound (20 * sum + n) (2 * n) ltac:(lia)) as Hb.
  nia.
Qed.

Lemma half_up_exact s n : (0 < n)%Z -> ((20 * (n * s) + n) / (2 * n) = 10 * s)%Z.
Proof.
  intros Hn.
  replace (20 * (n * s) + n)%Z with (n + (10 * s) * (2 * n))%Z by lia.
  rewrite Z.div_add by lia. rewrite Z.div_small by lia. lia.
Qed.

Lemma Zsum_constant s zs :
  Forall (fun z => z = s) zs -> Zsum zs = (Z.of_nat (List.length zs) * s)%Z.
Proof.
  induction 1 as [|z zs Hz _ IH]; [reflexivity|].
  unfold Zsum in *. cbn [fold_right List.length]. rewrite IH, Hz. lia.
Qed.

Lemma Zsum_bounds zs :
  Forall (fun z => (0 <= z <= 10)%Z) zs ->
  (0 <= Zsum zs <= 10 * Z.of_nat (List.length zs))%Z.
Proof.
  induction 1 as [|z zs Hz _ IH]; [simpl; lia|].
  unfold Zsum in *. cbn [fold_right List.length]. lia.
Qed.

Lemma whole_scores_length zs rows :
  whole_scores zs rows -> List.length zs = List.length rows.
Proof.
  unfold whole_scores. intros H. apply (f_equal (@List.length _)) in H.
  rewrite !length_map in H. congruence.
Qed.

(** The index over a window of whole scores from 0 to 10. *)
Lemma index_of_whole_scores zs rows :
  rows <> [] ->
  whole_scores zs (firstn 15 rows) ->
  Forall (fun z => (0 <= z <= 10)%Z) zs ->
  globalRiskIndex rows =
  Fixed1 (Numeral false
            ((20 * Zsum zs + Z.of_nat (List.length zs)) /
             (2 * Z.of_nat (List.length zs)))).
Proof.
  intros Hne Hws Hzs.
  pose proof (whole_scores_length _ _ Hws) as Hlen.
  assert (0 < List.length (firstn 15 rows) <= 15)%nat as Hn.
  { rewrite length_firstn. destruct rows; [contradiction|].
    cbn [List.length]. lia. }
  destruct rows as [|r rows]; [contradiction|].
  unfold globalRiskIndex. cbv zeta.
  remember (firstn 15 (r :: rows)) as window eqn:Hw.
  unfold sum_scores.
  rewrite (fold_whole_scores zs window 0 Hws Hzs) by lia.
  rewrite Z.add_0_l, <- Hlen.
  pose proof (Zsum_bounds zs Hzs).
  rewrite small_quotients by lia. reflexivity.
Qed.

Lemma firstn_15_get_cache t :
  firstn 15 (get_cache t) = firstn 15 (order_by_timestamp_desc t).
Proof. unfold get_cache, LIMIT. rewrite firstn_firstn. reflexivity. Qed.

Lemma get_cache_nonempty t : t <> [] -> get_cache t <> [].
Proof.
  intros Ht Hg. apply (f_equal (@List.length _)) in Hg.
  unfold get_cache, LIMIT in Hg. rewrite length_firstn in Hg.
  rewrite (Permutation_length (order_perm t)) in Hg.
  destruct t; [contradiction|]. simpl in Hg. lia.
Qed.

Lemma sorted_firstn_skipn {A} (R : A -> A -> Prop) n : forall l,
  StronglySorted R l ->
  forall x y, In x (firstn n l) -> In y (skipn n l) -> R x y.
Proof.
  induction n as [|n IH]; intros l Hs x y Hx Hy; [contradiction|].
  destruct l as [|z l]; [contradiction|].
  apply StronglySorted_inv in Hs. destruct Hs as [Hl Hz].
  simpl in Hx, Hy. destruct Hx as [<-|Hx].
  - rewrite Forall_forall in Hz. apply Hz.
    rewrite <- (firstn_skipn n l). apply in_or_app. right. assumption.
  - apply (IH l Hl); assumption.
Qed.

(** C4, as the code has it.  The window is the first 15 rows of the table
    [t] in descending order of timestamp (all rows when there are fewer):
    no row outside it is more recent than a row inside.  Over the list that
    GET /api/cache returns for [t], the index is the number 0 when the
    table is empty.  When the scores of the window are whole numbers from
    0 to 10, the index is the numeral with one decimal that is nearest to
    their mean: with [n] rows of sum [sum] in the window and [tenths] the
    numeral read in tenths, the distance between sum/n and tenths/10 is at
    most 1/20; and when all these scores are the whole number [s], the
    index is exactly [s]. *)
Theorem global_risk_index_value :
  forall (t : Table) (zs : list Z),
    let window := firstn 15 (order_by_timestamp_desc t) in
    let older := skipn 15 (order_by_timestamp_desc t) in
    let n := Z.of_nat (List.length window) in
    Permutation (window ++ older) t /\
    (forall r r', In r window -> In r' older ->
       (timestamp r' <= timestamp r)%Z) /\
    (t = [] -> globalRiskIndex (get_cache t) = Zero) /\
    (t <> [] -> whole_scores zs window ->
     Forall (fun z => (0 <= z <= 10)%Z) zs ->
       exists tenths,
         globalRiskIndex (get_cache t) = Fixed1 (Numeral false tenths) /\
         (0 < n <= 15)%Z /\
         (Z.abs (20 * Zsum zs - 2 * n * tenths) <= n)%Z /\
         forall s, Forall (fun z => z = s) zs -> tenths = (10 * s)%Z).
Proof.
  intros t zs window older n.
  split; [|split; [|split]].
  - unfold window, older. rewrite firstn_skipn. apply order_perm.
  - intros r r' Hr Hr'.
    apply (sorted_firstn_skipn newer_first 15 _ (order_sorted t)); assumption.
  - intros ->. reflexivity.
  - intros Ht Hws Hzs.
    assert (0 < n <= 15)%Z as Hn.
    { unfold n, window. rewrite length_firstn.
      rewrite (Permutation_length (order_perm t)).
      destruct t; [contradiction|]. simpl List.length. lia. }
    assert (Z.of_nat (List.length zs) = n) as Hlen.
    { unfold n. f_equal. apply whole_scores_length. exact Hws. }
    rewrite (index_of_whole_scores zs (get_cache t)
               (get_cache_nonempty t Ht));
      [|rewrite firstn_15_get_cache; exact Hws|exact Hzs].
    rewrite Hlen. eexists. split; [reflexivity|]. split; [exact Hn|].
    split; [apply half_up_nearest; lia|].
    intros s Hs. rewrite (Zsum_constant s zs Hs), Hlen.
    apply half_up_exact. lia.
Qed.

(** C4, at a table of three rows with the scores 2, 8 and 5 at
    increasing times. *)
Lemma global_risk_index_value_witness :
  exists tenths,
    globalRiskIndex
      (get_cache [sample_row "a" 2 10 []; sample_row "b" 8 20 [];
                  sample_row "c" 5 30 []]) = Fixed1 (Numeral false tenths) /\
    (0 < 3 <= 15)%Z /\
    (Z.abs (20 * Zsum [5; 8; 2] - 2 * 3 * tenths) <= 3)%Z /\
    forall s, Forall (fun z => z = s) [5; 8; 2]%Z -> tenths = (10 * s)%Z.
Proof.
  apply (proj2 (proj2 (proj2 (global_risk_index_value
           [sample_row "a" 2 10 []; sample_row "b" 8 20 [];
            sample_row "c" 5 30 []] [5; 8; 2]%Z)))).
  - discriminate.
  - reflexivity.
  - repeat constructor; lia.
Defined.

(** C4, counterexample.  The table has two rows and both have the score
    7.25, a number that the engine may return and that the column keeps.
    The index is the numeral 7.3, which is not 7.25. *)
Lemma index_of_equal_scores_is_rounded :
  let t := [scored_row "a" seven_and_a_quarter 10;
            scored_row "b" seven_and_a_quarter 20] in
  map risk_score t = [Some seven_and_a_quarter; Some seven_and_a_quarter] /\
  globalRiskIndex (get_cache t) = Fixed1 (Numeral false 73) /\
  number_same (parseFloat_index (globalRiskIndex (get_cache t)))
              seven_and_a_quarter = false.
Proof. vm_compute. repeat split. Qed.

Lemma filter_sorted {A} (R : A -> A -> Prop) p l :
  StronglySorted R l -> StronglySorted R (filter p l).
Proof.
  induction 1 as [|x l Hl IH Hx]; simpl; [constructor|].
  destruct (p x); [|assumption].
  constructor; [assumption|].
  rewrite Forall_forall in *. intros y Hy.
  apply Hx. apply filter_In in Hy. tauto.
Qed.

Lemma is_critical_scored c :
  is_critical c = true ->
  exists x, risk_score c = Some x /\ number_ge x (Number_of_Z 7) = true.
Proof.
  unfold is_critical, nullable_ge.
  destruct (risk_score c) as [x|]; [eauto|].
  intros H. vm_compute in H. discriminate.
Qed.

(** C7.  Over the list that GET /api/cache returns for any table [t],
    criticalEvents has at most 5 entries, each with a score that is a
    number and is at least 7; the entries are made, in this order, from
    rows of the table that stand most recent first. *)
Theorem critical_events_shape :
  forall (t : Table),
    let events := criticalEvents (get_cache t) in
    Forall (fun e => exists x, ev_score e = Some x /\
                               number_ge x (Number_of_Z 7) = true) events /\
    (List.length events <= 5)%nat /\
    exists rows,
      events = map to_event rows /\
      rows = firstn 5 (filter is_critical (get_cache t)) /\
      StronglySorted newer_first rows /\
      Forall (fun r => In r t /\
                       exists x, risk_score r = Some x /\
                                 number_ge x (Number_of_Z 7) = true) rows.
Proof.
  intros t events.
  assert (events = map to_event (firstn 5 (filter is_critical (get_cache t))))
    as Hev.
  { unfold events, criticalEvents. apply firstn_map. }
  assert (Forall (fun r => In r t /\
                           exists x, risk_score r = Some x /\
                                     number_ge x (Number_of_Z 7) = true)
            (firstn 5 (filter is_critical (get_cache t)))) as Hrows.
  { rewrite Forall_forall. intros r Hr.
    apply in_firstn in Hr. apply filter_In in Hr. destruct Hr as [Hin Hc].
    split.
    - apply (Permutation_in r (order_perm t)).
      unfold get_cache in Hin. eapply in_firstn. exact Hin.
    - apply is_critical_scored. assumption. }
  split; [|split].
  - rewrite Hev. rewrite Forall_map. simpl.
    eapply Forall_impl; [|exact Hrows]. intros r [_ H]. exact H.
  - unfold events, criticalEvents. apply firstn_le_length.
  - eexists. split; [exact Hev|]. split; [reflexivity|].
    split; [|exact Hrows].
    apply firstn_sorted, filter_sorted.
    unfold get_cache. apply firstn_sorted, order_sorted.
Qed.

End IndexFacts.

(* ------------------------------------------------------------------ *)
(** ** The aggregates: sectorImpacts *)

Section SectorFacts.
Import CachedAnalysis.

Variable toLowerCase : string -> string.

Lemma update_sector_keys s f sectors :
  map fst (update_sector s f sectors) = map fst sectors.
Proof.
  induction sectors as [|[k d] rest IH]; simpl; [reflexivity|].
  destruct (k =? s)%string; simpl; [|rewrite IH]; reflexivity.
Qed.

Lemma get_update_same s f sectors :
  get_sector s (update_sector s f sectors) = option_map f (get_sector s sectors).
Proof.
  induction sectors as [|[k d] rest IH]; simpl; [reflexivity|].
  destruct (k =? s)%string eqn:E; simpl; rewrite E; [reflexivity|assumption].
Qed.

Lemma get_update_other s s' f sectors :
  s' <> s ->
  get_sector s' (update_sector s f sectors) = get_sector s' sectors.
Proof.
  intros Hne. induction sectors as [|[k d] rest IH]; simpl; [reflexivity|].
  destruct (String.eqb_spec k s) as [->|Hk]; simpl.
  - destruct (String.eqb_spec s s'); [congruence|reflexivity].
  - rewrite IH. reflexivity.
Qed.

(** The loop over the keys: the entry of a key that is visited and
    matches is bumped once, every other entry stays. *)
Lemma visit_keys_get conseq ind s : forall keys sectors,
  NoDup keys ->
  let after :=
    fold_left
      (fun acc k =>
         if sector_matches toLowerCase ind k then update_sector k (bump conseq) acc else acc)
      keys sectors in
  map fst after = map fst sectors /\
  get_sector s after =
    if existsb (String.eqb s) keys && sector_matches toLowerCase ind s
    then option_map (bump conseq) (get_sector s sectors)
    else get_sector s sectors.
Proof.
  induction keys as [|k keys IH]; intros sectors Hnd; [split; reflexivity|].
  inversion Hnd as [|? ? Hnotin Hnd']; subst.
  cbn [fold_left existsb]. cbv zeta in IH |- *.
  set (acc := if sector_matches toLowerCase ind k
              then update_sector k (bump conseq) sectors else sectors).
  destruct (IH acc Hnd') as [Hkeys Hget]. split.
  - rewrite Hkeys. unfold acc.
    destruct (sector_matches toLowerCase ind k); [apply update_sector_keys|reflexivity].
  - rewrite Hget. destruct (String.eqb_spec s k) as [->|Hne].
    + assert (existsb (String.eqb k) keys = false) as ->.
      { apply not_true_is_false. intros He. apply existsb_exists in He.
        destruct He as [x [Hx Heq]]. apply String.eqb_eq in Heq. subst.
        contradiction. }
      simpl. unfold acc. destruct (sector_matches toLowerCase ind k); [|reflexivity].
      apply get_update_same.
    + simpl.
      assert (get_sector s acc = get_sector s sectors) as ->; [|reflexivity].
      unfold acc. destruct (sector_matches toLowerCase ind k); [|reflexivity].
      apply get_update_other. assumption.
Qed.

Lemma visit_industry_spec conseq sectors ind s :
  NoDup (map fst sectors) -> In s (map fst sectors) ->
  map fst (visit_industry toLowerCase conseq sectors ind) = map fst sectors /\
  count_of s (visit_industry toLowerCase conseq sectors ind) =
    (count_of s sectors + if sector_matches toLowerCase ind s then 1 else 0)%nat.
Proof.
  intros Hnd Hin.
  destruct (visit_keys_get conseq ind s (map fst sectors) sectors Hnd)
    as [Hkeys Hget].
  split; [exact Hkeys|].
  unfold count_of, visit_industry. rewrite Hget.
  assert (existsb (String.eqb s) (map fst sectors) = true) as ->.
  { apply existsb_exists. exists s. split; [assumption|apply String.eqb_refl]. }
  simpl. destruct (sector_matches toLowerCase ind s); [|lia].
  assert (exists d, get_sector s sectors = Some d) as [d ->].
  { clear -Hin. induction sectors as [|[k d] rest IH]; [contradiction|].
    simpl in *. destruct (String.eqb_spec k s); [eauto|].
    destruct Hin as [?|Hin]; [contradiction|]. auto. }
  simpl. lia.
Qed.

Lemma visit_industries_spec conseq s inds : forall sectors,
  NoDup (map fst sectors) -> In s (map fst sectors) ->
  let after := fold_left (visit_industry toLowerCase conseq) inds sectors in
  map fst after = map fst sectors /\
  count_of s after =
    (count_of s sectors +
     List.length (filter (fun ind => sector_matches toLowerCase ind s) inds))%nat.
Proof.
  induction inds as [|ind inds IH]; intros sectors Hnd Hin; cbv zeta.
  - simpl. split; [reflexivity|lia].
  - cbn [fold_left filter].
    destruct (visit_industry_spec conseq sectors ind s Hnd Hin) as [Hk Hc].
    destruct (IH (visit_industry toLowerCase conseq sectors ind)) as [Hk' Hc'];
      [rewrite Hk; assumption | rewrite Hk; assumption |].
    split; [congruence|]. rewrite Hc', Hc.
    destruct (sector_matches toLowerCase ind s); cbn [List.length].
    + lia.
    + lia.
Qed.

Lemma matches_of_nil s : matches_of toLowerCase s [] = O.
Proof. reflexivity. Qed.

Lemma matches_of_cons s c rows :
  matches_of toLowerCase s (c :: rows) =
  (match industries_of c with
   | Some inds => List.length (filter (fun ind => sector_matches toLowerCase ind s) inds)
   | None => O
   end + matches_of toLowerCase s rows)%nat.
Proof. reflexivity. Qed.

Lemma visit_rows_spec s rows : forall sectors,
  NoDup (map fst sectors) -> In s (map fst sectors) ->
  (forall c, In c rows -> industries_of c <> None) ->
  exists after,
    visit_rows toLowerCase sectors rows = Some after /\
    map fst after = map fst sectors /\
    count_of s after = (count_of s sectors + matches_of toLowerCase s rows)%nat.
Proof.
  induction rows as [|c rows IH]; intros sectors Hnd Hin Hwf.
  - exists sectors. split; [reflexivity|]. split; [reflexivity|].
    rewrite matches_of_nil. lia.
  - cbn [visit_rows]. unfold visit_row.
    assert (industries_of c <> None) as Hc0
      by (apply Hwf; left; reflexivity).
    unfold industries_of in Hc0.
    destruct (fields (analysis c)) as [a|] eqn:Ea; [|contradiction].
    destruct (industries a) as [inds|] eqn:Einds; [|contradiction].
    destruct (visit_industries_spec (consequences a) s inds
                sectors Hnd Hin) as [Hk Hc].
    destruct (IH (fold_left (visit_industry toLowerCase (consequences a))
                    inds sectors)) as [after [Hv [Hk' Hc']]].
    + rewrite Hk. assumption.
    + rewrite Hk. assumption.
    + intros c' Hc1. apply Hwf. right. assumption.
    + exists after. split; [exact Hv|]. split; [congruence|].
      rewrite Hc', Hc, matches_of_cons. unfold industries_of.
      rewrite Ea, Einds. lia.
Qed.

Lemma matches_of_positive s rows :
  (0 < matches_of toLowerCase s rows)%nat <->
  exists c inds ind,
    In c rows /\ industries_of c = Some inds /\ In ind inds /\
    includes (toLowerCase ind) (toLowerCase s) = true.
Proof.
  induction rows as [|c rows IH].
  - rewrite matches_of_nil. split; [lia|]. intros [c [inds [ind [[] _]]]].
  - rewrite matches_of_cons. split.
    + intros Hpos.
      assert ((exists inds ind, industries_of c = Some inds /\
                 In ind inds /\ sector_matches toLowerCase ind s = true) \/
              (0 < matches_of toLowerCase s rows)%nat) as [[inds [ind [Hi [Hin Hm]]]]|Hrest].
      { destruct (industries_of c) as [inds|]; [|right; lia].
        destruct (filter (fun ind => sector_matches toLowerCase ind s) inds)
          as [|ind l] eqn:Ef; [right; simpl in Hpos; lia|].
        left. exists inds, ind. split; [reflexivity|].
        apply (proj1 (filter_In (fun ind => sector_matches toLowerCase ind s) ind inds)).
        rewrite Ef. left. reflexivity. }
      * exists c, inds, ind. repeat split; auto. left; reflexivity.
      * apply IH in Hrest. destruct Hrest as [c' [inds' [ind' [Hin H]]]].
        exists c', inds', ind'. split; [right; assumption|exact H].
    + intros [c' [inds [ind [[<-|Hin] [Hi [Hind Hm]]]]]].
      * rewrite Hi.
        assert (In ind (filter (fun ind => sector_matches toLowerCase ind s) inds)) as Hf
          by (apply filter_In; split; assumption).
        destruct (filter (fun ind => sector_matches toLowerCase ind s) inds);
          [contradiction|simpl; lia].
      * assert (0 < matches_of toLowerCase s rows)%nat; [|lia].
        apply IH. exists c', inds, ind. auto.
Qed.

Lemma get_sector_in s d sectors :
  NoDup (map fst sectors) ->
  (In (s, d) sectors <-> get_sector s sectors = Some d).
Proof.
  induction sectors as [|[k e] rest IH]; intros Hnd; simpl.
  - split; [contradiction|discriminate].
  - inversion Hnd as [|? ? Hnotin Hnd']; subst.
    destruct (String.eqb_spec k s) as [->|Hne].
    + split.
      * intros [Heq|Hin]; [congruence|].
        exfalso. apply Hnotin. apply (in_map fst) in Hin. exact Hin.
      * intros Heq. left. congruence.
    + rewrite <- (IH Hnd'). split.
      * intros [Heq|Hin]; [congruence|assumption].
      * intros Hin. right. assumption.
Qed.

Lemma sectors_init_keys_NoDup : NoDup (map fst sectors_init).
Proof.
  simpl. repeat constructor; simpl; intuition discriminate.
Qed.

(** C8, as the code has it.  When the analysis of every cached row is an
    object with its list of industries, sectorImpacts returns a result,
    whatever toLowerCase does to a string, and for each of the six
    sector labels: the label has an entry in the result exactly when some
    industry string of some row, put in lower case, contains the label put
    in lower case; the count of an entry is the number of such industry
    strings over all rows and is not zero.  The result has no other keys. *)
Theorem sector_impacts_by_inclusion :
  forall (cachedAnalyses : list CachedAnalysis.t),
    (forall c, In c cachedAnalyses -> industries_of c <> None) ->
    exists result,
      sectorImpacts toLowerCase cachedAnalyses = Some result /\
      (forall s d, In (s, d) result -> In s (map fst sectors_init)) /\
      forall s, In s (map fst sectors_init) ->
        ((exists d, In (s, d) result) <->
         (exists c inds ind,
            In c cachedAnalyses /\ industries_of c = Some inds /\
            In ind inds /\
            includes (toLowerCase ind) (toLowerCase s) = true)) /\
        (forall d, In (s, d) result ->
           count d = matches_of toLowerCase s cachedAnalyses /\ (0 < count d)%nat).
Proof.
  intros cache Hwf.
  destruct (visit_rows_spec "Energy" cache sectors_init
              sectors_init_keys_NoDup ltac:(simpl; auto) Hwf)
    as [after [Hv [Hkeys _]]].
  assert (NoDup (map fst after)) as Hnd
    by (rewrite Hkeys; apply sectors_init_keys_NoDup).
  exists (filter (fun e => (0 <? count (snd e))%nat) after).
  split; [unfold sectorImpacts; rewrite Hv; reflexivity|].
  split.
  - intros s d Hin. apply filter_In in Hin. destruct Hin as [Hin _].
    rewrite <- Hkeys. apply (in_map fst) in Hin. exact Hin.
  - intros s Hs.
    destruct (visit_rows_spec s cache sectors_init
                sectors_init_keys_NoDup Hs Hwf) as [after' [Hv' [_ Hc]]].
    rewrite Hv in Hv'. injection Hv' as <-.
    assert (count_of s sectors_init = O) as Hzero.
    { simpl in Hs. unfold count_of.
      repeat (destruct Hs as [<-|Hs]; [reflexivity|]). contradiction. }
    rewrite Hzero in Hc. simpl in Hc.
    assert (forall d, In (s, d) (filter (fun e => (0 <? count (snd e))%nat) after)
                      <-> get_sector s after = Some d /\ (0 < count d)%nat)
      as Hentry.
    { intros d. rewrite filter_In, (get_sector_in s d after Hnd). simpl.
      rewrite Nat.ltb_lt. reflexivity. }
    split; [split|].
    + intros [d Hd]. apply Hentry in Hd. destruct Hd as [Hg Hpos].
      apply matches_of_positive. rewrite <- Hc.
      unfold count_of. rewrite Hg. exact Hpos.
    + intros Hex. apply matches_of_positive in Hex. rewrite <- Hc in Hex.
      unfold count_of in Hex.
      destruct (get_sector s after) as [d|] eqn:Hg; [|lia].
      exists d. apply Hentry. split; [reflexivity|exact Hex].
    + intros d Hd. apply Hentry in Hd. destruct Hd as [Hg Hpos].
      split; [|exact Hpos]. rewrite <- Hc. unfold count_of. rewrite Hg.
      reflexivity.
Qed.

End SectorFacts.

Section SectorRuns.
Import CachedAnalysis.

(** C8, at one row whose industries are Semiconductors and materials and
    Container shipping. *)
Lemma sector_impacts_by_inclusion_witness :
  exists result,
    sectorImpacts toLowerCase_ascii
      [sample_row "a" 8 10 ["Semiconductors and materials"; "Container shipping"]]
      = Some result /\
    (forall s d, In (s, d) result -> In s (map fst sectors_init)) /\
    forall s, In s (map fst sectors_init) ->
      ((exists d, In (s, d) result) <->
       (exists c inds ind,
          In c [sample_row "a" 8 10
                  ["Semiconductors and materials"; "Container shipping"]] /\
          industries_of c = Some inds /\
          In ind inds /\
          includes (toLowerCase_ascii ind) (toLowerCase_ascii s) = true)) /\
      (forall d, In (s, d) result ->
         count d =
           matches_of toLowerCase_ascii s
             [sample_row "a" 8 10
                ["Semiconductors and materials"; "Container shipping"]] /\
         (0 < count d)%nat).
Proof.
  apply (sector_impacts_by_inclusion toLowerCase_ascii
           [sample_row "a" 8 10
              ["Semiconductors and materials"; "Container shipping"]]).
  intros c [<-|[]]. discriminate.
Defined.

(** C8, counterexample.  The only row has the industries Semiconductor
    manufacturing.  The label Semiconductors, in lower case, is not
    contained in that string in lower case (the string has no final s), so
    the row is counted under no sector and the result is empty. *)
Lemma semiconductor_manufacturing_not_counted :
  sector_matches toLowerCase_ascii
    "Semiconductor manufacturing" "Semiconductors" = false /\
  sectorImpacts toLowerCase_ascii
    [sample_row "a" 8 10 ["Semiconductor manufacturing"]] = Some [].
Proof. split; reflexivity. Qed.

End SectorRuns.

(* ------------------------------------------------------------------ *)
(** ** The client: what a call of analyzeHeadline leaves behind *)

Section ClientFacts.
Import CachedAnalysis.

Variable env : Env.

Ltac run_js :=
  unfold handleAnalyze, analyzeHeadline, read_riskScore, saveToCache,
    fetchCache, getAI, JSON_parse, try_catch_finally, item_id, item_headline,
    select_if_news, setLoading, setCurrentAnalysis, setCachedAnalyses,
    setSelectedNews, set_db, record_call, sleep, console_error, Date_now,
    modify, gets, throw, bind, ret in *;
  cbn [fst snd] in *.

(** A call is recorded and touches nothing but the record of calls and
    the clock. *)
Lemma analyzeHeadline_state h s :
  let s' := snd (analyzeHeadline env h s) in
  analyzed s' = h :: analyzed s /\
  db s' = db s /\
  cachedAnalyses s' = cachedAnalyses s /\
  currentAnalysis s' = currentAnalysis s /\
  console s' = console s /\
  (clock s <= clock s')%Z.
Proof.
  cbv zeta. run_js. simpl.
  destruct (GEMINI_API_KEY env) as [[|c k]|]; simpl;
    try (repeat split; lia).
  destruct (generateContent env (List.length (analyzed s)) h) as [e|text];
    simpl; [repeat split; lia|].
  destruct (text_or_braces text); simpl; repeat split; lia.
Qed.

(** A request for an identity that the snapshot holds. *)
Lemma handleAnalyze_hit item s c :
  find (fun c => (id c =? NewsItem.id item)%string) (cachedAnalyses s) = Some c ->
  let s' := snd (handleAnalyze env (inl item) s) in
  currentAnalysis s' = analysis c /\
  analyzed s' = analyzed s /\
  db s' = db s /\
  cachedAnalyses s' = cachedAnalyses s /\
  console s' = console s.
Proof.
  intros Hfind. cbv zeta. run_js. simpl. rewrite Hfind. simpl.
  repeat split.
Qed.

(** A request for an identity that the snapshot does not hold, when
    analyzeHeadline throws. *)
Lemma handleAnalyze_miss_thrown item s e :
  find (fun c => (id c =? NewsItem.id item)%string) (cachedAnalyses s) = None ->
  fst (analyzeHeadline env (NewsItem.headline item) s) = Thrown e ->
  let s' := snd (handleAnalyze env (inl item) s) in
  db s' = db s /\
  cachedAnalyses s' = cachedAnalyses s /\
  currentAnalysis s' = currentAnalysis s /\
  analyzed s' = NewsItem.headline item :: analyzed s /\
  console s' = "Analysis error:" :: console s.
Proof.
  intros Hfind Hthrown. cbv zeta. run_js. simpl in *. rewrite Hfind.
  destruct (GEMINI_API_KEY env) as [[|ch k]|]; simpl in *;
    try (repeat split; fail).
  destruct (generateContent env (List.length (analyzed s))
              (NewsItem.headline item)) as [e'|text];
    simpl in *; [repeat split|].
  destruct (text_or_braces text); simpl in *; try discriminate; repeat split.
Qed.

(** A request for an identity that the snapshot does not hold, when
    analyzeHeadline returns null: reading riskScore off it throws. *)
Lemma handleAnalyze_miss_null item s v :
  find (fun c => (id c =? NewsItem.id item)%string) (cachedAnalyses s) = None ->
  fst (analyzeHeadline env (NewsItem.headline item) s) = Returned v ->
  fields v = None ->
  let s' := snd (handleAnalyze env (inl item) s) in
  db s' = db s /\
  cachedAnalyses s' = cachedAnalyses s /\
  currentAnalysis s' = v /\
  analyzed s' = NewsItem.headline item :: analyzed s /\
  console s' = "Analysis error:" :: console s.
Proof.
  intros Hfind Hret Hnull. cbv zeta. run_js. simpl in *. rewrite Hfind.
  destruct (GEMINI_API_KEY env) as [[|ch k]|]; simpl in *; try discriminate.
  destruct (generateContent env (List.length (analyzed s))
              (NewsItem.headline item)) as [e'|text];
    simpl in *; [discriminate|].
  destruct (text_or_braces text); simpl in *; try discriminate.
  injection Hret as ->. rewrite Hnull. simpl. repeat split.
Qed.

(** A request for an identity that the snapshot does not hold, when
    analyzeHeadline returns a value [v] that is not null and whose keys
    are those of [a]. *)
Lemma handleAnalyze_miss_returned item s v a :
  find (fun c => (id c =? NewsItem.id item)%string) (cachedAnalyses s) = None ->
  fst (analyzeHeadline env (NewsItem.headline item) s) = Returned v ->
  fields v = Some a ->
  let s' := snd (handleAnalyze env (inl item) s) in
  let now :=
    ((clock s + Z.of_N (latency env (List.length (analyzed s)))) / 1000)%Z in
  db s' =
    Server.insert_or_replace now (NewsItem.id item) (NewsItem.headline item)
      v (riskScore a) (db s) /\
  cachedAnalyses s' = Server.get_cache (db s') /\
  currentAnalysis s' = v /\
  analyzed s' = NewsItem.headline item :: analyzed s /\
  console s' = console s.
Proof.
  intros Hfind Hret Hobj. cbv zeta. run_js. simpl in *. rewrite Hfind.
  destruct (GEMINI_API_KEY env) as [[|ch k]|]; simpl in *; try discriminate.
  destruct (generateContent env (List.length (analyzed s))
              (NewsItem.headline item)) as [e'|text];
    simpl in *; [discriminate|].
  destruct (text_or_braces text); simpl in *; try discriminate.
  injection Hret as ->. rewrite Hobj. unfold CURRENT_TIMESTAMP. simpl.
  repeat split.
Qed.

(** Whatever analyzeHeadline does on a request that misses the snapshot,
    it is called once. *)
Lemma handleAnalyze_miss_calls item s :
  find (fun c => (id c =? NewsItem.id item)%string) (cachedAnalyses s) = None ->
  analyzed (snd (handleAnalyze env (inl item) s)) =
  NewsItem.headline item :: analyzed s.
Proof.
  intros Hfind.
  destruct (fst (analyzeHeadline env (NewsItem.headline item) s)) as [v|e]
    eqn:Hres.
  - destruct (fields v) as [a|] eqn:Hv.
    + apply (handleAnalyze_miss_returned item s v a Hfind Hres Hv).
    + apply (handleAnalyze_miss_null item s v Hfind Hres Hv).
  - apply (handleAnalyze_miss_thrown item s e Hfind Hres).
Qed.

(** C2.  A feed item whose identity the snapshot does not hold is
    requested and analyzeHeadline throws (no key, a request that fails, a
    text that is not JSON).  Then the table and the snapshot are as before,
    the error is logged, and the next request for an item of the same
    identity calls analyzeHeadline again. *)
Theorem failed_analysis_writes_nothing :
  forall (s : State) (item item' : NewsItem.t) (e : string),
    find (fun c => (id c =? NewsItem.id item)%string) (cachedAnalyses s) = None ->
    fst (analyzeHeadline env (NewsItem.headline item) s) = Thrown e ->
    NewsItem.id item' = NewsItem.id item ->
    let s1 := snd (handleAnalyze env (inl item) s) in
    let s2 := snd (handleAnalyze env (inl item') s1) in
    db s1 = db s /\
    cachedAnalyses s1 = cachedAnalyses s /\
    analyzed s1 = NewsItem.headline item :: analyzed s /\
    console s1 = "Analysis error:" :: console s /\
    analyzed s2 = NewsItem.headline item' :: analyzed s1.
Proof.
  intros s item item' e Hfind Hthrown Hid s1 s2.
  destruct (handleAnalyze_miss_thrown item s e Hfind Hthrown)
    as [Hdb [Hcache [_ [Hlog Hcon]]]].
  fold s1 in Hdb, Hcache, Hlog, Hcon.
  repeat (split; [assumption|]).
  apply handleAnalyze_miss_calls.
  rewrite Hcache, Hid. exact Hfind.
Qed.

(** The new row is found in the first [n] rows when fewer than [n] rows
    stand before it. *)
Lemma find_insert_desc i r : forall rows n,
  Server.has_id i r = true ->
  (forall x, In x rows -> Server.has_id i x = false) ->
  (List.length (filter (fun x => (timestamp r <=? timestamp x)%Z) rows) < n)%nat ->
  find (Server.has_id i) (firstn n (Server.insert_desc r rows)) = Some r.
Proof.
  induction rows as [|x rows IH]; intros n Hr Hother Hcount.
  - destruct n; [simpl in Hcount; lia|]. simpl. rewrite Hr. reflexivity.
  - cbn [Server.insert_desc].
    cbn [filter] in Hcount.
    destruct (Z.ltb_spec (timestamp x) (timestamp r)) as [Hlt|Hge].
    + destruct n; [lia|]. simpl. rewrite Hr. reflexivity.
    + destruct (Z.leb_spec (timestamp r) (timestamp x)) as [_|Hgt]; [|lia].
      cbn [List.length] in Hcount.
      destruct n; [lia|]. cbn [firstn find].
      rewrite (Hother x (or_introl eq_refl)).
      apply IH; [assumption| |lia].
      intros y Hy. apply Hother. right. assumption.
Qed.

Lemma filter_filter {A} (p q : A -> bool) l :
  filter p (filter q l) = filter (fun x => q x && p x) l.
Proof.
  induction l as [|x l IH]; simpl; [reflexivity|].
  destruct (q x); simpl; [destruct (p x); [f_equal|]|]; assumption.
Qed.

Lemma filter_perm_length {A} (p : A -> bool) l l' :
  Permutation l l' -> List.length (filter p l) = List.length (filter p l').
Proof.
  induction 1 as [|x l l' _ IH|x y l|l l' l'' _ IH1 _ IH2]; simpl.
  - reflexivity.
  - destruct (p x); simpl; congruence.
  - destruct (p x), (p y); reflexivity.
  - congruence.
Qed.

(** After the upsert of a row for [i] at the time [now], the list that
    GET /api/cache returns holds this row, provided fewer than 50 rows of
    other identities are not older than it. *)
Lemma get_cache_finds_new now i h a sc t :
  (List.length (filter (not_older_than now i) t) < 50)%nat ->
  find (fun c => (id c =? i)%string)
    (Server.get_cache (Server.insert_or_replace now i h a sc t)) =
  Some (row_written now i h a sc).
Proof.
  intros Hcount. unfold Server.get_cache, Server.insert_or_replace, Server.LIMIT.
  rewrite order_snoc.
  apply (find_insert_desc i).
  - apply has_id_new.
  - intros x Hx.
    apply (Permutation_in x (order_perm _)) in Hx.
    apply filter_In in Hx. destruct Hx as [_ Hx].
    apply negb_true_iff in Hx. exact Hx.
  - cbn [timestamp].
    rewrite (filter_perm_length _ _ _ (order_perm _)).
    rewrite filter_filter. exact Hcount.
Qed.

(** C1, as the code has it.  A feed item of identity [i] that the snapshot
    does not hold is requested, analyzeHeadline returns a value [v] that is
    not null, and fewer than 50 rows of other identities are not older
    than the row written for [i].  Then [v] becomes the current analysis,
    and in every later state [s2] whose snapshot still holds for [i] what
    it held right after this request, a request for an item of identity
    [i], whatever its headline, makes the stored analysis (the value that
    the JSON text of [v] reads back as) the current analysis again, does
    not call analyzeHeadline and changes neither the table nor the
    snapshot. *)
Theorem repeated_request_served_from_snapshot :
  forall (s s2 : State) (item item' : NewsItem.t) (v : Json),
    find (fun c => (id c =? NewsItem.id item)%string) (cachedAnalyses s) = None ->
    fst (analyzeHeadline env (NewsItem.headline item) s) = Returned v ->
    fields v <> None ->
    (List.length
       (filter
          (not_older_than
             ((clock s + Z.of_N (latency env (List.length (analyzed s)))) / 1000)%Z
             (NewsItem.id item))
          (db s)) < 50)%nat ->
    NewsItem.id item' = NewsItem.id item ->
    let s1 := snd (handleAnalyze env (inl item) s) in
    find (fun c => (id c =? NewsItem.id item)%string) (cachedAnalyses s2) =
    find (fun c => (id c =? NewsItem.id item)%string) (cachedAnalyses s1) ->
    let s3 := snd (handleAnalyze env (inl item') s2) in
    currentAnalysis s1 = v /\
    analyzed s1 = NewsItem.headline item :: analyzed s /\
    currentAnalysis s3 = JSON_roundtrip v /\
    analyzed s3 = analyzed s2 /\
    db s3 = db s2 /\
    cachedAnalyses s3 = cachedAnalyses s2.
Proof.
  intros s s2 item item' v Hfind Hret Hobj Hcount Hid s1 Hsame s3.
  destruct (fields v) as [a|] eqn:Hv; [clear Hobj|contradiction].
  destruct (handleAnalyze_miss_returned item s v a Hfind Hret Hv)
    as [Hdb [Hcache [Hcur [Hlog _]]]].
  fold s1 in Hdb, Hcache, Hcur, Hlog.
  split; [exact Hcur|]. split; [exact Hlog|].
  rewrite Hcache, Hdb in Hsame.
  rewrite (get_cache_finds_new _ _ _ _ _ _ Hcount) in Hsame.
  rewrite <- Hid in Hsame.
  destruct (handleAnalyze_hit item' s2 _ Hsame) as [Hc3 [Hl3 [Hd3 [Hs3 _]]]].
  fold s3 in Hc3, Hl3, Hd3, Hs3. cbn [analysis row_written] in Hc3.
  repeat split; assumption.
Qed.

Lemma analyzeHeadline_answered h s text :
  fst (getAI env s) = Returned tt ->
  generateContent env (List.length (analyzed s)) h = Answered text ->
  fst (analyzeHeadline env h s) =
  match text_or_braces text with
  | JsonText v => Returned v
  | _ => Thrown "SyntaxError"
  end.
Proof.
  intros Hkey Hgen. run_js. simpl in *.
  destruct (GEMINI_API_KEY env) as [[|ch k]|]; simpl in *; try discriminate.
  rewrite Hgen. simpl. destruct (text_or_braces text); reflexivity.
Qed.

(** C10, as the code has it.  A feed item whose identity the snapshot does
    not hold is requested, the key is set and the engine answers with
    [text]; a text that is missing or empty is read as the text of the
    object without keys.  A text that JSON.parse rejects ends the request:
    the error is logged, the current analysis and the table are as before.
    The text of null becomes the current analysis, then the error of
    reading its riskScore is logged and the table is as before.  The text
    of any other value is taken as the analysis whatever keys it has: it
    becomes the current analysis, no error is logged, and the row of this
    identity in the table is the one written for it, with the riskScore
    that the value has, NULL when it has none; the snapshot is read
    again. *)
Theorem response_text_decides_the_request :
  forall (s : State) (item : NewsItem.t) (text : ResponseText),
    find (fun c => (id c =? NewsItem.id item)%string) (cachedAnalyses s) = None ->
    fst (getAI env s) = Returned tt ->
    generateContent env (List.length (analyzed s)) (NewsItem.headline item)
      = Answered text ->
    let s' := snd (handleAnalyze env (inl item) s) in
    let now :=
      ((clock s + Z.of_N (latency env (List.length (analyzed s)))) / 1000)%Z in
    match text_or_braces text with
    | JsonText v =>
        currentAnalysis s' = v /\
        match fields v with
        | Some a =>
            console s' = console s /\
            db s' =
              Server.insert_or_replace now (NewsItem.id item)
                (NewsItem.headline item) v (riskScore a) (db s) /\
            filter (Server.has_id (NewsItem.id item)) (db s') =
              [ row_written now (NewsItem.id item) (NewsItem.headline item)
                  v (riskScore a) ] /\
            cachedAnalyses s' = Server.get_cache (db s')
        | None =>
            console s' = "Analysis error:" :: console s /\
            db s' = db s /\
            cachedAnalyses s' = cachedAnalyses s
        end
    | _ =>
        currentAnalysis s' = currentAnalysis s /\
        console s' = "Analysis error:" :: console s /\
        db s' = db s /\
        cachedAnalyses s' = cachedAnalyses s
    end.
Proof.
  intros s item text Hfind Hkey Hgen s' now.
  pose proof (analyzeHeadline_answered _ s text Hkey Hgen) as Hres.
  destruct (text_or_braces text) as [|bad|v].
  - destruct (handleAnalyze_miss_thrown item s _ Hfind Hres)
      as [Hdb [Hcache [Hcur [_ Hcon]]]].
    repeat split; assumption.
  - destruct (handleAnalyze_miss_thrown item s _ Hfind Hres)
      as [Hdb [Hcache [Hcur [_ Hcon]]]].
    repeat split; assumption.
  - destruct (fields v) as [a|] eqn:Hv.
    + destruct (handleAnalyze_miss_returned item s v a Hfind Hres Hv)
        as [Hdb [Hcache [Hcur [_ Hcon]]]].
      fold s' in Hdb, Hcache, Hcur, Hcon. fold now in Hdb.
      repeat (split; [assumption|]).
      split; [|exact Hcache].
      rewrite Hdb. apply insert_or_replace_own.
    + destruct (handleAnalyze_miss_null item s v Hfind Hres Hv)
        as [Hdb [Hcache [Hcur [_ Hcon]]]].
      repeat split; assumption.
Qed.

(** *** The loop of init *)



(** One turn of the loop that returns has recorded one call and has left
    the snapshot and the console as they were. *)
Lemma backfill_item_returned item s s1 :
  backfill_item env item s = (Returned tt, s1) ->
  analyzed s1 = NewsItem.headline item :: analyzed s /\
  cachedAnalyses s1 = cachedAnalyses s /\
  console s1 = console s.
Proof.
  unfold backfill_item, bind.
  pose proof (analyzeHeadline_state (NewsItem.headline item) s) as Hst.
  cbv zeta in Hst.
  destruct (analyzeHeadline env (NewsItem.headline item) s) as [[v|e'] s0];
    [|discriminate].
  cbn [snd] in Hst. destruct Hst as [Hlog [_ [Hcache [_ [Hcon _]]]]].
  unfold read_riskScore.
  destruct (fields v) as [a|]; [|discriminate].
  unfold saveToCache, set_db, modify, gets, bind, ret. cbn [fst snd].
  intros [= <-]. simpl. auto.
Qed.

Lemma backfill_loop_returned pre : forall s s1,
  for_of pre (backfill_item env) s = (Returned tt, s1) ->
  analyzed s1 = rev (map NewsItem.headline pre) ++ analyzed s /\
  cachedAnalyses s1 = cachedAnalyses s /\
  console s1 = console s.
Proof.
  induction pre as [|x pre IH]; intros s s1.
  - intros [= <-]. auto.
  - cbn [for_of]. unfold bind.
    destruct (backfill_item env x s) as [[[]|e] s0] eqn:Hx; [|discriminate].
    intros Hrest. apply backfill_item_returned in Hx.
    apply IH in Hrest. destruct Hx as [Hl [Hc Hk]], Hrest as [Hl' [Hc' Hk']].
    cbn [map rev]. rewrite <- app_assoc. cbn [app].
    rewrite Hl', Hl, Hc', Hc, Hk', Hk. auto.
Qed.


End ClientFacts.

(* ------------------------------------------------------------------ *)
(** ** Concrete runs *)

Section Runs.
Import CachedAnalysis.

(** C1, counterexample.  The item 0 is analysed, then the items 1 to 50,
    one second apart, then the item 0 is requested again.  The list of
    GET /api/cache holds the 50 most recent rows, so the row of item 0 is
    no longer in the snapshot although it is in the table: analyzeHeadline
    is called a second time for the headline of item 0, and the current
    analysis differs from the one cached first. *)
Lemma second_request_analysed_again :
  let s0 := initial_state [] 0 in
  let s1 := session steady_env [Click (sample_item 0)] s0 in
  let s2 := session steady_env (map (fun k => Click (sample_item k)) (seq 1 50)) s1 in
  let s3 := session steady_env [Click (sample_item 0)] s2 in
  analyzed s1 = ["Headline 0"] /\
  currentAnalysis s1 = JObject (sample_analysis 1 ["Shipping"]) /\
  map analysis (filter (Server.has_id "guid-0") (db s2)) =
    [JObject (sample_analysis 1 ["Shipping"])] /\
  find (Server.has_id "guid-0") (cachedAnalyses s2) = None /\
  analyzed s3 = "Headline 0" :: analyzed s2 /\
  List.length (analyzed s3) = 52%nat /\
  currentAnalysis s3 = JObject (sample_analysis 2 ["Shipping"]).
Proof. vm_compute. repeat split. Qed.

(** C1, at the first request for the item 0 with an empty table, followed
    at once by a request for an item of the same identity and another
    headline. *)
Lemma repeated_request_served_from_snapshot_witness :
  let s := initial_state [] 0 in
  let item' :=
    {| NewsItem.id := "guid-0"; NewsItem.headline := "Another headline";
       NewsItem.source := "Reuters"; NewsItem.date := "today";
       NewsItem.link := "https://news.example/other" |} in
  let s1 := snd (handleAnalyze steady_env (inl (sample_item 0)) s) in
  let s3 := snd (handleAnalyze steady_env (inl item') s1) in
  currentAnalysis s1 = JObject (sample_analysis 1 ["Shipping"]) /\
  analyzed s1 = ["Headline 0"] /\
  currentAnalysis s3 = JSON_roundtrip (JObject (sample_analysis 1 ["Shipping"])) /\
  analyzed s3 = analyzed s1 /\
  db s3 = db s1 /\
  cachedAnalyses s3 = cachedAnalyses s1.
Proof.
  cbv zeta.
  apply (repeated_request_served_from_snapshot steady_env
           (initial_state [] 0)
           (snd (handleAnalyze steady_env (inl (sample_item 0))
                   (initial_state [] 0)))
           (sample_item 0)
           {| NewsItem.id := "guid-0"; NewsItem.headline := "Another headline";
              NewsItem.source := "Reuters"; NewsItem.date := "today";
              NewsItem.link := "https://news.example/other" |}
           (JObject (sample_analysis 1 ["Shipping"]))).
  - reflexivity.
  - reflexivity.
  - discriminate.
  - simpl. lia.
  - reflexivity.
  - reflexivity.
Defined.

(** C2, at an engine whose first request fails: the item 0 is requested
    twice. *)
Lemma failed_analysis_writes_nothing_witness :
  let s := initial_state [] 0 in
  let s1 := snd (handleAnalyze flaky_env (inl (sample_item 0)) s) in
  let s2 := snd (handleAnalyze flaky_env (inl (sample_item 0)) s1) in
  db s1 = db s /\
  cachedAnalyses s1 = cachedAnalyses s /\
  analyzed s1 = ["Headline 0"] /\
  console s1 = ["Analysis error:"] /\
  analyzed s2 = "Headline 0" :: analyzed s1.
Proof.
  cbv zeta.
  apply (failed_analysis_writes_nothing flaky_env (initial_state [] 0)
           (sample_item 0) (sample_item 0) "503").
  - reflexivity.
  - reflexivity.
  - reflexivity.
Defined.



(** C10, counterexample.  The engine answers with no text, an empty
    payload: the request does not fail, the object without keys becomes
    the current analysis and a row is cached for the identity, with the
    score NULL.  The engine answers with the text of an object that has
    the key riskScore and no other: the request does not fail either, and
    the object is the analysis of the row cached for the identity. *)
Lemma incomplete_analysis_is_cached :
  let s := initial_state [] 0 in
  let s1 := snd (handleAnalyze (fixed_env Undefined) (inl (sample_item 0)) s) in
  let s2 := snd (handleAnalyze (fixed_env (JsonText (JObject score_only)))
                   (inl (sample_item 0)) s) in
  console s1 = [] /\
  currentAnalysis s1 = JObject empty_object /\
  map analysis (filter (Server.has_id "guid-0") (db s1)) =
    [JObject empty_object] /\
  map risk_score (filter (Server.has_id "guid-0") (db s1)) = [None] /\
  console s2 = [] /\
  currentAnalysis s2 = JObject score_only /\
  map analysis (filter (Server.has_id "guid-0") (db s2)) = [JObject score_only].
Proof. cbv zeta. repeat split. Qed.

(** C10, at an engine that answers with the text of the object whose only
    key is riskScore. *)
Lemma response_text_decides_the_request_witness :
  let s := initial_state [] 0 in
  let s' := snd (handleAnalyze (fixed_env (JsonText (JObject score_only)))
                   (inl (sample_item 0)) s) in
  currentAnalysis s' = JObject score_only /\
  console s' = console s /\
  db s' =
    Server.insert_or_replace 1 "guid-0" "Headline 0" (JObject score_only)
      (Some (Number_of_Z 3)) (db s) /\
  filter (Server.has_id "guid-0") (db s') =
    [ row_written 1 "guid-0" "Headline 0" (JObject score_only)
        (Some (Number_of_Z 3)) ] /\
  cachedAnalyses s' = Server.get_cache (db s').
Proof.
  cbv zeta.
  apply (response_text_decides_the_request
           (fixed_env (JsonText (JObject score_only)))
           (initial_state [] 0) (sample_item 0)
           (JsonText (JObject score_only))).
  - reflexivity.
  - reflexivity.
  - reflexivity.
Defined.

End Runs.

(* ------------------------------------------------------------------ *)
(** * Further properties of the code *)

(* ------------------------------------------------------------------ *)
(** ** The table over a sequence of requests *)

Section StoreLifecycle.
Import CachedAnalysis.
Import Server.

Lemma post_cache_ids now body t i :
  In i (map id (snd (post_cache now body t))) <->
  In i (map id t) \/ writes_id i (now, body) = true.
Proof.
  unfold post_cache, writes_id. cbn [snd].
  unfold insert_or_replace. rewrite map_app, in_app_iff. cbn [map id In].
  rewrite String.eqb_eq. split.
  - intros [Hin|[Heq|[]]]; [left|right; assumption].
    apply in_map_iff in Hin. destruct Hin as [r [<- Hr]].
    apply filter_In in Hr. apply in_map. tauto.
  - intros [Hin|Heq]; [|right; left; assumption].
    destruct (String.eqb_spec (b_id body) i) as [Hi|Hi];
      [right; left; assumption|left].
    apply in_map_iff in Hin. destruct Hin as [r [<- Hr]].
    apply in_map. apply filter_In. split; [assumption|].
    unfold has_id. apply negb_true_iff. apply String.eqb_neq. congruence.
Qed.

(** X1.  The identities of the table after a sequence of POST requests
    are those it had before and those of the requests, with or without a
    score: no request removes an identity. *)
Theorem table_identities_only_grow :
  forall (reqs : list (Z * PostBody)) (t0 : Table) (i : string),
    In i (map id (serve_posts reqs t0)) <->
    In i (map id t0) \/ existsb (writes_id i) reqs = true.
Proof.
  unfold serve_posts.
  induction reqs as [|[now body] reqs IH]; intros t0 i; cbn [fold_left existsb].
  - split; [tauto|]. intros [H|H]; [assumption|discriminate].
  - cbn [fst snd]. rewrite IH, post_cache_ids, orb_true_iff. tauto.
Qed.

Lemma post_cache_other_rows now body t i :
  writes_id i (now, body) = false ->
  filter (has_id i) (snd (post_cache now body t)) = filter (has_id i) t.
Proof.
  unfold writes_id, post_cache. cbn [snd].
  intros Hne. apply String.eqb_neq in Hne.
  apply insert_or_replace_other. assumption.
Qed.

Lemma serve_posts_other_rows reqs i : forall t,
  existsb (writes_id i) reqs = false ->
  filter (has_id i) (serve_posts reqs t) = filter (has_id i) t.
Proof.
  unfold serve_posts.
  induction reqs as [|[now body] reqs IH]; intros t Hnone; [reflexivity|].
  cbn [existsb] in Hnone. apply orb_false_iff in Hnone.
  destruct Hnone as [H1 H2]. cbn [fold_left fst snd].
  rewrite (IH _ H2). apply post_cache_other_rows. assumption.
Qed.

(** X2.  The last write wins.  When a request for the identity [i], with
    a score or without one, is followed only by requests for other
    identities, the table holds for [i] exactly the row of that request,
    with the time of that request, whatever was written for [i] before. *)
Theorem last_post_for_identity_wins :
  forall (before later : list (Z * PostBody)) (t0 : Table)
         (now : Z) (i h : string) (a : Json) (s : option number),
    existsb (writes_id i) later = false ->
    filter (has_id i)
      (serve_posts
         (before ++
          (now, {| b_id := i; b_headline := h; b_analysis := a;
                   b_risk_score := s |}) :: later) t0) =
    [ row_written now i h a s ].
Proof.
  intros before later t0 now i h a s Hlater.
  unfold serve_posts. rewrite fold_left_app. cbn [fold_left fst snd].
  fold (serve_posts before t0).
  match goal with
  | |- context [fold_left ?f later ?t] =>
      change (fold_left f later t) with (serve_posts later t)
  end.
  rewrite (serve_posts_other_rows later i _ Hlater).
  unfold post_cache. cbn [b_risk_score b_id b_headline b_analysis snd].
  apply insert_or_replace_own.
Qed.

(** X2, at three requests: x is written with a score, written again
    without one, then y is written. *)
Lemma last_post_for_identity_wins_witness :
  filter (has_id "x")
    (serve_posts
       ([(100%Z, sample_body "x" 4)] ++
        (200%Z, {| b_id := "x"; b_headline := "Second";
                   b_analysis := JObject empty_object;
                   b_risk_score := None |}) ::
        [(300%Z, sample_body "y" 2)]) []) =
  [ row_written 200 "x" "Second" (JObject empty_object) None ].
Proof.
  apply (last_post_for_identity_wins [(100%Z, sample_body "x" 4)]
           [(300%Z, sample_body "y" 2)] [] 200%Z "x" "Second"
           (JObject empty_object) None).
  reflexivity.
Defined.

(** X3.  GET /api/cache splits the table in the rows it returns and the
    rows it leaves out: together they are the whole table, the rows left
    out number the rows beyond 50 (none for a table of at most 50 rows),
    and no row left out is more recent than a row returned. *)
Theorem get_cache_keeps_the_most_recent :
  forall (t : Table),
    let kept := get_cache t in
    let left_out := skipn 50 (order_by_timestamp_desc t) in
    Permutation (kept ++ left_out) t /\
    List.length left_out = (List.length t - 50)%nat /\
    forall r r', In r kept -> In r' left_out ->
      (timestamp r' <= timestamp r)%Z.
Proof.
  intros t kept left_out. unfold kept, left_out, get_cache, LIMIT.
  split; [|split].
  - rewrite firstn_skipn. apply order_perm.
  - rewrite length_skipn. rewrite (Permutation_length (order_perm t)).
    reflexivity.
  - intros r r' Hr Hr'.
    apply (sorted_firstn_skipn newer_first 50 _ (order_sorted t)); assumption.
Qed.

End StoreLifecycle.

(* ------------------------------------------------------------------ *)
(** ** The label of the index, the trend and the map *)

Section LabelFacts.
Import CachedAnalysis.

Lemma numerals_compare_checked :
  forallb (numeral_compares 7) (Zrange 0 101) = true /\
  forallb (numeral_compares 4) (Zrange 0 101) = true /\
  forallb score_compares (Zrange 0 11) = true.
Proof. vm_compute. repeat split. Qed.

Lemma numeral_at_least_7 tenths :
  (0 <= tenths <= 100)%Z ->
  number_ge (parseFloat (Numeral false tenths)) (Number_of_Z 7) =
  (70 <=? tenths)%Z.
Proof.
  intros H.
  pose proof (forallb_Zrange _ 0 101 (proj1 numerals_compare_checked)
                tenths ltac:(lia)) as Hc.
  apply Bool.eqb_prop in Hc. exact Hc.
Qed.

Lemma numeral_at_least_4 tenths :
  (0 <= tenths <= 100)%Z ->
  number_ge (parseFloat (Numeral false tenths)) (Number_of_Z 4) =
  (40 <=? tenths)%Z.
Proof.
  intros H.
  pose proof (forallb_Zrange _ 0 101
                (proj1 (proj2 numerals_compare_checked))
                tenths ltac:(lia)) as Hc.
  apply Bool.eqb_prop in Hc. exact Hc.
Qed.

Lemma whole_score_at_least_7 z :
  (0 <= z <= 10)%Z ->
  number_ge (Number_of_Z z) (Number_of_Z 7) = (7 <=? z)%Z.
Proof.
  intros H.
  pose proof (forallb_Zrange _ 0 11
                (proj2 (proj2 numerals_compare_checked)) z ltac:(lia)) as Hc.
  apply Bool.eqb_prop in Hc. exact Hc.
Qed.

Lemma half_up_at_least sum n k :
  (0 < n)%Z -> (0 <= sum)%Z ->
  ((k <=? (20 * sum + n) / (2 * n))%Z = ((2 * k - 1) * n <=? 20 * sum)%Z).
Proof.
  intros Hn Hsum.
  pose proof (Z.div_mod (20 * sum + n) (2 * n) ltac:(lia)) as Hdm.
  pose proof (Z.mod_pos_bound (20 * sum + n) (2 * n) ltac:(lia)) as Hb.
  destruct (Z.leb_spec k ((20 * sum + n) / (2 * n)));
  destruct (Z.leb_spec ((2 * k - 1) * n) (20 * sum)); try reflexivity; nia.
Qed.

Lemma half_up_range sum n :
  (0 < n)%Z -> (0 <= sum <= 10 * n)%Z ->
  (0 <= (20 * sum + n) / (2 * n) <= 100)%Z.
Proof.
  intros Hn Hsum. split.
  - apply Z.div_pos; lia.
  - pose proof (Z.div_mod (20 * sum + n) (2 * n) ltac:(lia)) as Hdm.
    pose proof (Z.mod_pos_bound (20 * sum + n) (2 * n) ltac:(lia)) as Hb.
    nia.
Qed.

(** The label over a window of whole scores from 0 to 10. *)
Lemma label_of_whole_window (cachedAnalyses : list CachedAnalysis.t) zs :
  cachedAnalyses <> [] ->
  whole_scores zs (firstn 15 cachedAnalyses) ->
  Forall (fun z => (0 <= z <= 10)%Z) zs ->
  let n := Z.of_nat (List.length zs) in
  (0 < n)%Z /\
  globalRiskLabel (globalRiskIndex cachedAnalyses) =
    if (139 * n <=? 20 * Zsum zs)%Z then "Elevated Geopolitical Risk"
    else if (79 * n <=? 20 * Zsum zs)%Z then "Moderate Geopolitical Tension"
    else "Low Geopolitical Risk".
Proof.
  intros Hne Hws Hzs n.
  assert (0 < n)%Z as Hn.
  { unfold n. rewrite (whole_scores_length _ _ Hws), length_firstn.
    destruct cachedAnalyses; [contradiction|]. cbn [List.length]. lia. }
  split; [exact Hn|].
  rewrite (index_of_whole_scores zs cachedAnalyses Hne Hws Hzs). fold n.
  pose proof (Zsum_bounds zs Hzs) as Hsum. fold n in Hsum.
  pose proof (half_up_range (Zsum zs) n Hn Hsum) as Hrange.
  unfold globalRiskLabel, parseFloat_index. cbv zeta.
  rewrite (numeral_at_least_7 _ Hrange), (numeral_at_least_4 _ Hrange).
  rewrite (half_up_at_least (Zsum zs) n 70 Hn), (half_up_at_least (Zsum zs) n 40 Hn)
    by lia.
  replace ((2 * 70 - 1) * n)%Z with (139 * n)%Z by lia.
  replace ((2 * 40 - 1) * n)%Z with (79 * n)%Z by lia.
  reflexivity.
Qed.

(** X4.  The label is decided on the rounded index, so the bands start
    one twentieth below 7 and below 4.  Over a list that is not empty and
    whose window of 15 has [n] rows with whole scores from 0 to 10 of sum
    [sum]: the label is Elevated exactly when the mean is at least 6.95
    (139 n <= 20 sum), Moderate exactly when it is at least 3.95 and below
    6.95, and Low exactly when it is below 3.95. *)
Theorem global_risk_label_bands :
  forall (cachedAnalyses : list CachedAnalysis.t) (zs : list Z),
    cachedAnalyses <> [] ->
    whole_scores zs (firstn 15 cachedAnalyses) ->
    Forall (fun z => (0 <= z <= 10)%Z) zs ->
    let n := Z.of_nat (List.length zs) in
    let sum := Zsum zs in
    let label := globalRiskLabel (globalRiskIndex cachedAnalyses) in
    (label = "Elevated Geopolitical Risk" <-> (139 * n <= 20 * sum)%Z) /\
    (label = "Moderate Geopolitical Tension" <->
       (79 * n <= 20 * sum < 139 * n)%Z) /\
    (label = "Low Geopolitical Risk" <-> (20 * sum < 79 * n)%Z).
Proof.
  intros cache zs Hne Hws Hzs n sum label.
  destruct (label_of_whole_window cache zs Hne Hws Hzs) as [Hn Hlabel].
  unfold label. rewrite Hlabel. fold n. fold sum.
  destruct (Z.leb_spec (139 * n) (20 * sum));
    [|destruct (Z.leb_spec (79 * n) (20 * sum))];
    (split; [|split]); split; intros H'; try discriminate H';
    try reflexivity; lia.
Qed.

(** X4, at three rows with the scores 7, 7 and 7, then 7, 7 and 6. *)
Lemma global_risk_label_bands_witness :
  globalRiskLabel
    (globalRiskIndex [sample_row "a" 7 30 []; sample_row "b" 7 20 [];
                      sample_row "c" 7 10 []]) =
    "Elevated Geopolitical Risk" /\
  globalRiskLabel
    (globalRiskIndex [sample_row "a" 7 30 []; sample_row "b" 7 20 [];
                      sample_row "c" 6 10 []]) =
    "Moderate Geopolitical Tension".
Proof.
  split.
  - apply (proj1 (global_risk_label_bands
             [sample_row "a" 7 30 []; sample_row "b" 7 20 [];
              sample_row "c" 7 10 []] [7; 7; 7]%Z ltac:(discriminate)
             ltac:(reflexivity) ltac:(repeat constructor; lia))).
    simpl. lia.
  - apply (proj1 (proj2 (global_risk_label_bands
             [sample_row "a" 7 30 []; sample_row "b" 7 20 [];
              sample_row "c" 6 10 []] [7; 7; 6]%Z ltac:(discriminate)
             ltac:(reflexivity) ltac:(repeat constructor; lia)))).
    simpl. lia.
Defined.

Lemma Zsum_below bound zs :
  Forall (fun z => (z <= bound)%Z) zs ->
  (Zsum zs <= Z.of_nat (List.length zs) * bound)%Z.
Proof.
  induction 1 as [|z zs Hz _ IH]; [reflexivity|].
  unfold Zsum in *. cbn [fold_right List.length]. lia.
Qed.

(** X5.  Over whole scores from 0 to 10, an index labelled Elevated comes
    with an alert: when the label is Elevated, one of the 15 most recent
    rows of the list has a score of at least 7 and criticalEvents is not
    empty. *)
Theorem elevated_label_has_critical_event :
  forall (cachedAnalyses : list CachedAnalysis.t) (zs : list Z),
    whole_scores zs (firstn 15 cachedAnalyses) ->
    Forall (fun z => (0 <= z <= 10)%Z) zs ->
    globalRiskLabel (globalRiskIndex cachedAnalyses) =
      "Elevated Geopolitical Risk" ->
    (exists c z, In c (firstn 15 cachedAnalyses) /\
                 risk_score c = Some (Number_of_Z z) /\ (7 <= z <= 10)%Z) /\
    criticalEvents cachedAnalyses <> [].
Proof.
  intros cache zs Hws Hzs Hlabel.
  assert (cache <> []) as Hne by (intros ->; discriminate Hlabel).
  destruct (label_of_whole_window cache zs Hne Hws Hzs) as [Hn Hl].
  rewrite Hl in Hlabel. clear Hl.
  set (n := Z.of_nat (List.length zs)) in *.
  destruct (Z.leb_spec (139 * n) (20 * Zsum zs)) as [Hsum|_].
  2:{ destruct (79 * n <=? 20 * Zsum zs)%Z; discriminate. }
  assert (exists z, In z zs /\ (7 <= z)%Z) as [z [Hin Hz]].
  { destruct (Exists_dec (fun z => (7 <= z)%Z) zs) as [Hex|Hno].
    - intros z. destruct (Z_le_dec 7 z); [left|right]; assumption.
    - apply Exists_exists in Hex. exact Hex.
    - exfalso.
      assert (Forall (fun z => (z <= 6)%Z) zs) as Hall.
      { apply Forall_forall. intros z Hz.
        destruct (Z_le_dec 7 z) as [H7|H7]; [|lia].
        exfalso. apply Hno. apply Exists_exists. eauto. }
      apply Zsum_below in Hall. fold n in Hall. lia. }
  assert (0 <= z <= 10)%Z as Hrange
    by (rewrite Forall_forall in Hzs; apply Hzs; assumption).
  assert (exists c, In c (firstn 15 cache) /\
                    risk_score c = Some (Number_of_Z z)) as [c [Hc Hscore]].
  { apply (in_map (fun z => Some (Number_of_Z z))) in Hin.
    unfold whole_scores in Hws. rewrite <- Hws in Hin.
    apply in_map_iff in Hin. destruct Hin as [c [Hscore Hc]]. eauto. }
  split; [exists c, z; repeat split; (assumption || lia)|].
  unfold criticalEvents.
  assert (In c (filter is_critical cache)) as Hf.
  { apply filter_In. split.
    - eapply in_firstn. exact Hc.
    - unfold is_critical, nullable_ge. rewrite Hscore.
      rewrite (whole_score_at_least_7 z Hrange). apply Z.leb_le. assumption. }
  destruct (filter is_critical cache) as [|x l]; [contradiction|].
  discriminate.
Qed.

(** X5, at a list of two rows with the scores 9 and 8. *)
Lemma elevated_label_has_critical_event_witness :
  (exists c z,
     In c (firstn 15 [sample_row "a" 9 20 []; sample_row "b" 8 10 []]) /\
     risk_score c = Some (Number_of_Z z) /\ (7 <= z <= 10)%Z) /\
  criticalEvents [sample_row "a" 9 20 []; sample_row "b" 8 10 []] <> [].
Proof.
  apply (elevated_label_has_critical_event
           [sample_row "a" 9 20 []; sample_row "b" 8 10 []] [9; 8]%Z).
  - reflexivity.
  - repeat constructor; lia.
  - vm_compute. reflexivity.
Defined.

(** The scores must be whole for X5: one row with the score 6.96 prints
    as 7.0, the label is Elevated and no event is critical. *)
Lemma elevated_without_critical_event :
  let t := [scored_row "a" (number_div (Number_of_Z 696) (Number_of_Z 100)) 10] in
  globalRiskIndex t = Fixed1 (Numeral false 70) /\
  globalRiskLabel (globalRiskIndex t) = "Elevated Geopolitical Risk" /\
  criticalEvents t = [].
Proof. vm_compute. repeat split. Qed.

End LabelFacts.

Section TrendFacts.
Import CachedAnalysis.

Variable toLowerCase : string -> string.
Variable getTime : Z -> Z.

Lemma by_date_negative p x :
  (by_date getTime p x <? 0)%Z =
  (getTime (TrendPoint.date p) <? getTime (TrendPoint.date x))%Z.
Proof.
  unfold by_date.
  destruct (Z.ltb_spec (getTime (TrendPoint.date p))
                       (getTime (TrendPoint.date x)));
    [apply Z.ltb_lt|apply Z.ltb_ge]; lia.
Qed.

Lemma insert_sorted_perm {A} (compare : A -> A -> Z) p l :
  Permutation (insert_sorted compare p l) (p :: l).
Proof.
  induction l as [|x l IH]; simpl; [reflexivity|].
  destruct (compare p x <? 0)%Z; [reflexivity|].
  rewrite IH. apply perm_swap.
Qed.

Lemma fold_insert_sorted_perm {A} (compare : A -> A -> Z) l : forall acc,
  Permutation (fold_left (fun acc p => insert_sorted compare p acc) l acc)
              (acc ++ l).
Proof.
  induction l as [|p l IH]; intros acc; simpl.
  - rewrite app_nil_r. reflexivity.
  - rewrite IH, insert_sorted_perm. apply Permutation_middle.
Qed.

Lemma insert_by_date_sorted p l :
  StronglySorted (earlier_first getTime) l ->
  StronglySorted (earlier_first getTime) (insert_sorted (by_date getTime) p l).
Proof.
  induction l as [|x l IH]; intros Hs; simpl.
  - constructor; constructor.
  - apply StronglySorted_inv in Hs. destruct Hs as [Hl Hx].
    rewrite by_date_negative.
    destruct (Z.ltb_spec (getTime (TrendPoint.date p))
                         (getTime (TrendPoint.date x))) as [Hlt|Hge].
    + constructor; [constructor; assumption|].
      constructor; [unfold earlier_first; lia|].
      eapply Forall_impl; [|exact Hx]. unfold earlier_first. intros; lia.
    + constructor; [apply IH; assumption|].
      eapply Permutation_Forall; [symmetry; apply insert_sorted_perm|].
      constructor; [unfold earlier_first; lia|assumption].
Qed.

Lemma insert_by_date_stable k p l :
  StronglySorted (earlier_first getTime) l ->
  filter (on_time getTime k) (insert_sorted (by_date getTime) p l) =
  filter (on_time getTime k) l ++ filter (on_time getTime k) [p].
Proof.
  induction l as [|x l IH]; intros Hs; [reflexivity|].
  apply StronglySorted_inv in Hs. destruct Hs as [Hl Hx].
  cbn [insert_sorted]. rewrite by_date_negative.
  destruct (Z.ltb_spec (getTime (TrendPoint.date p))
                       (getTime (TrendPoint.date x))) as [Hlt|Hge].
  - remember (x :: l) as xl eqn:Exl. cbn [filter].
    destruct (on_time getTime k p) eqn:Hp; [|rewrite app_nil_r; reflexivity].
    assert (filter (on_time getTime k) xl = []) as ->; [|reflexivity].
    apply filter_none. intros y Hy. subst xl. unfold on_time in *.
    apply Z.eqb_eq in Hp.
    assert (getTime (TrendPoint.date x) <= getTime (TrendPoint.date y))%Z.
    { destruct Hy as [->|Hy]; [lia|].
      rewrite Forall_forall in Hx. apply (Hx y Hy). }
    destruct (Z.eqb_spec (getTime (TrendPoint.date y)) k); [lia|reflexivity].
  - cbn [filter]. rewrite (IH Hl).
    destruct (on_time getTime k x); reflexivity.
Qed.

Lemma sort_by_date_facts k l : forall acc,
  StronglySorted (earlier_first getTime) acc ->
  let sorted :=
    fold_left (fun acc p => insert_sorted (by_date getTime) p acc) l acc in
  StronglySorted (earlier_first getTime) sorted /\
  filter (on_time getTime k) sorted =
  filter (on_time getTime k) acc ++ filter (on_time getTime k) l.
Proof.
  induction l as [|p l IH]; intros acc Hs; cbv zeta; cbn [fold_left].
  - split; [assumption|]. simpl. rewrite app_nil_r. reflexivity.
  - destruct (IH (insert_sorted (by_date getTime) p acc)
                (insert_by_date_sorted p acc Hs)) as [Hsorted Hstable].
    split; [exact Hsorted|]. rewrite Hstable.
    rewrite insert_by_date_stable by assumption.
    rewrite <- app_assoc. change (p :: l) with ([p] ++ l).
    rewrite (filter_app _ [p] l). reflexivity.
Qed.

(** X6.  Whatever time new Date reads off the text of a timestamp,
    trendData holds one point for every row of the list and no other, in
    ascending order of the time read; points that read as one time keep
    the order they have in the list. *)
Theorem trend_is_chronological :
  forall (cachedAnalyses : list CachedAnalysis.t),
    let trend := trendData getTime cachedAnalyses in
    Permutation trend (map to_point cachedAnalyses) /\
    StronglySorted (earlier_first getTime) trend /\
    forall k, filter (on_time getTime k) trend =
              filter (on_time getTime k) (map to_point cachedAnalyses).
Proof.
  intros cache trend. unfold trend, trendData, sort_with.
  split; [apply (fold_insert_sorted_perm (by_date getTime) _ [])|].
  split.
  - apply (sort_by_date_facts 0 (map to_point cache) []). constructor.
  - intros k.
    apply (sort_by_date_facts k (map to_point cache) []). constructor.
Qed.

Lemma sort_descending_is_rev l : forall acc,
  StronglySorted
    (fun a b => (getTime (TrendPoint.date b) < getTime (TrendPoint.date a))%Z) l ->
  (forall p x, In p l -> In x acc ->
     (getTime (TrendPoint.date p) < getTime (TrendPoint.date x))%Z) ->
  fold_left (fun acc p => insert_sorted (by_date getTime) p acc) l acc =
  rev l ++ acc.
Proof.
  induction l as [|p l IH]; intros acc Hs Hacc; [reflexivity|].
  apply StronglySorted_inv in Hs. destruct Hs as [Hl Hp].
  cbn [fold_left rev]. rewrite <- app_assoc. cbn [app].
  assert (insert_sorted (by_date getTime) p acc = p :: acc) as ->.
  { destruct acc as [|x acc]; [reflexivity|]. cbn [insert_sorted].
    rewrite by_date_negative.
    assert (getTime (TrendPoint.date p) < getTime (TrendPoint.date x))%Z
      as Hlt by (apply Hacc; left; reflexivity).
    apply Z.ltb_lt in Hlt. rewrite Hlt. reflexivity. }
  apply IH; [assumption|].
  intros q x Hq [<-|Hx].
  - rewrite Forall_forall in Hp. apply Hp. assumption.
  - apply Hacc; [right|]; assumption.
Qed.

Lemma strictly_sorted l :
  StronglySorted newer_first l -> NoDup (map timestamp l) ->
  StronglySorted (fun a b => (timestamp b < timestamp a)%Z) l.
Proof.
  induction 1 as [|x l Hl IH Hx]; intros Hnd; constructor.
  - apply IH. inversion Hnd; assumption.
  - inversion Hnd as [|? ? Hnotin _]; subst.
    rewrite Forall_forall in *. intros y Hy.
    specialize (Hx y Hy). unfold newer_first in Hx.
    destruct (Z.eq_dec (timestamp y) (timestamp x)) as [Heq|Hne]; [|lia].
    exfalso. apply Hnotin. rewrite <- Heq. apply in_map. assumption.
Qed.

Lemma sorted_map {A B} (f : A -> B) (R : A -> A -> Prop) (Q : B -> B -> Prop) l :
  (forall a b, R a b -> Q (f a) (f b)) ->
  StronglySorted R l -> StronglySorted Q (map f l).
Proof.
  intros HRQ. induction 1 as [|x l Hl IH Hx]; simpl; constructor.
  - assumption.
  - rewrite Forall_map. eapply Forall_impl; [|exact Hx]. intros; auto.
Qed.

(** X7.  When a later timestamp always reads as a later time (no change
    of the local offset falls between two rows) and no two rows of the
    table have the same timestamp, the trend over the list of
    GET /api/cache is that list read backwards: the oldest of the returned
    rows comes first. *)
Theorem trend_reverses_the_snapshot :
  forall (t : Server.Table),
    (forall a b, (a < b)%Z -> (getTime a < getTime b)%Z) ->
    NoDup (map timestamp t) ->
    trendData getTime (Server.get_cache t) =
    rev (map to_point (Server.get_cache t)).
Proof.
  intros t Hmono Hnd.
  assert (StronglySorted (fun a b => (timestamp b < timestamp a)%Z)
            (Server.get_cache t)) as Hstrict.
  { apply strictly_sorted.
    - unfold Server.get_cache. apply firstn_sorted, order_sorted.
    - unfold Server.get_cache. rewrite <- firstn_map.
      assert (NoDup (map timestamp (Server.order_by_timestamp_desc t))) as Hall.
      { eapply Permutation_NoDup; [|exact Hnd].
        apply Permutation_map. symmetry. apply order_perm. }
      rewrite <- (firstn_skipn Server.LIMIT) in Hall.
      apply NoDup_app_remove_r in Hall. exact Hall. }
  unfold trendData, sort_with.
  rewrite (sort_descending_is_rev (map to_point (Server.get_cache t)) []).
  - apply app_nil_r.
  - apply (sorted_map to_point _ _ _ (fun a b H => Hmono _ _ H) Hstrict).
  - intros p x _ [].
Qed.

Lemma includes_empty s : includes s EmptyString = true.
Proof. destruct s; reflexivity. Qed.

(** X8.  On the map the first point that matches decides, and a point
    whose region is the empty string matches every country, the empty
    string being its own lower case: when the points before it all have a
    name that does not match the country, the country gets what the scale
    makes of the score of that point. *)
Theorem empty_region_colours_every_country :
  forall (countryName : string) (before after : list MapPoint.t)
         (m : MapPoint.t),
    toLowerCase EmptyString = EmptyString ->
    Forall (fun p => exists nm,
                MapPoint.name p = Some nm /\
                country_matches toLowerCase countryName nm = false) before ->
    MapPoint.name m = Some EmptyString ->
    fill toLowerCase countryName (before ++ m :: after) =
    fill_of_score (MapPoint.score m).
Proof.
  intros country before after m Hempty Hbefore Hname.
  induction Hbefore as [|p before [nm [Hnm Hno]] _ IH]; cbn [app fill].
  - rewrite Hname. unfold country_matches. rewrite Hempty.
    rewrite includes_empty. reflexivity.
  - rewrite Hnm, Hno. exact IH.
Qed.

End TrendFacts.

Section TrendRuns.
Import CachedAnalysis.

(** X7, at a table of three rows written at the seconds 10, 20 and 30,
    read in a zone without a change of offset. *)
Lemma trend_reverses_the_snapshot_witness :
  trendData getTime_utc
    (Server.get_cache
       [sample_row "a" 2 10 []; sample_row "b" 8 20 []; sample_row "c" 5 30 []]) =
  rev (map to_point
         (Server.get_cache
            [sample_row "a" 2 10 []; sample_row "b" 8 20 [];
             sample_row "c" 5 30 []])).
Proof.
  apply (trend_reverses_the_snapshot getTime_utc
           [sample_row "a" 2 10 []; sample_row "b" 8 20 []; sample_row "c" 5 30 []]).
  - unfold getTime_utc. lia.
  - simpl. repeat constructor; simpl; intuition discriminate.
Defined.

(** The order of the texts is not the order of the times when the clocks
    go forward between two rows: the row written at the second 1800 of the
    skipped hour reads as later than the row written at the second 3600,
    and the trend is the snapshot as it is, not read backwards. *)
Lemma trend_across_a_skipped_hour :
  let t := [sample_row "a" 2 1800 []; sample_row "b" 8 3600 []] in
  map TrendPoint.date (map to_point (Server.get_cache t)) = [3600; 1800]%Z /\
  map TrendPoint.date
    (trendData (getTime_spring_forward 0) (Server.get_cache t)) =
    [3600; 1800]%Z.
Proof. vm_compute. split; reflexivity. Qed.

(** X8, at a point for Iran before a point with an empty region, for the
    country Brazil. *)
Lemma empty_region_colours_every_country_witness :
  fill toLowerCase_ascii "Brazil"
    ([ {| MapPoint.name := Some "Iran";
          MapPoint.score := Some (Number_of_Z 9) |} ] ++
     {| MapPoint.name := Some EmptyString;
        MapPoint.score := Some (Number_of_Z 2) |} :: []) =
  fill_of_score (Some (Number_of_Z 2)).
Proof.
  apply (empty_region_colours_every_country toLowerCase_ascii "Brazil"
           [ {| MapPoint.name := Some "Iran";
                MapPoint.score := Some (Number_of_Z 9) |} ] []
           {| MapPoint.name := Some EmptyString;
              MapPoint.score := Some (Number_of_Z 2) |}).
  - reflexivity.
  - constructor; [|constructor]. exists "Iran". split; reflexivity.
  - reflexivity.
Defined.

End TrendRuns.

(* ------------------------------------------------------------------ *)
(** ** More on sectorImpacts *)

Section SectorMore.
Import CachedAnalysis.

Variable toLowerCase : string -> string.

Lemma visit_rows_none rows : forall sectors,
  visit_rows toLowerCase sectors rows = None <->
  exists c, In c rows /\ industries_of c = None.
Proof.
  induction rows as [|c rows IH]; intros sectors; cbn [visit_rows].
  - split; [discriminate|]. intros [c [[] _]].
  - unfold visit_row.
    destruct (fields (analysis c)) as [a|] eqn:Ea;
      [destruct (industries a) as [inds|] eqn:Einds|].
    + rewrite IH. split.
      * intros [c' [Hin Hc']]. exists c'. split; [right|]; assumption.
      * intros [c' [[<-|Hin] Hc']];
          [unfold industries_of in Hc'; rewrite Ea in Hc'; congruence|].
        exists c'. auto.
    + split; [|reflexivity]. intros _. exists c. split; [left; reflexivity|].
      unfold industries_of. rewrite Ea. assumption.
    + split; [|reflexivity]. intros _. exists c. split; [left; reflexivity|].
      unfold industries_of. rewrite Ea. reflexivity.
Qed.

(** X9.  sectorImpacts throws exactly when some row of the list has an
    analysis that is null or has no industries; one such row is enough to
    lose the summary of all the others. *)
Theorem sector_impacts_throws_on_missing_industries :
  forall (cachedAnalyses : list CachedAnalysis.t),
    sectorImpacts toLowerCase cachedAnalyses = None <->
    exists c, In c cachedAnalyses /\ industries_of c = None.
Proof.
  intros cache. rewrite <- (visit_rows_none cache sectors_init).
  unfold sectorImpacts.
  destruct (visit_rows toLowerCase sectors_init cache); split; intros H;
    try discriminate; reflexivity.
Qed.

Lemma update_sector_preserves (P : SectorData -> Prop) s f sectors :
  (forall d, P d -> P (f d)) ->
  Forall (fun e => P (snd e)) sectors ->
  Forall (fun e => P (snd e)) (update_sector s f sectors).
Proof.
  intros Hf. induction 1 as [|[k d] rest Hd Hrest IH]; simpl; [constructor|].
  cbn [snd] in Hd.
  destruct (k =? s)%string; constructor; cbn [snd]; auto.
Qed.

Lemma visit_industry_preserves (P : SectorData -> Prop) conseq sectors ind :
  (forall d, P d -> P (bump conseq d)) ->
  Forall (fun e => P (snd e)) sectors ->
  Forall (fun e => P (snd e)) (visit_industry toLowerCase conseq sectors ind).
Proof.
  intros Hf. unfold visit_industry.
  generalize (map fst sectors) as keys.
  intros keys. revert sectors.
  induction keys as [|k keys IH]; intros sectors Hs; cbn [fold_left];
    [assumption|].
  apply IH. destruct (sector_matches toLowerCase ind k); [|assumption].
  apply update_sector_preserves; assumption.
Qed.

Lemma visit_rows_preserves (P : SectorData -> Prop) rows : forall sectors after,
  (forall c d, In c rows -> P d -> P (bump (consequences_of c) d)) ->
  Forall (fun e => P (snd e)) sectors ->
  visit_rows toLowerCase sectors rows = Some after ->
  Forall (fun e => P (snd e)) after.
Proof.
  induction rows as [|c rows IH]; intros sectors after Hf Hs; cbn [visit_rows].
  - intros [= <-]. assumption.
  - unfold visit_row.
    assert (forall d, P d -> P (bump (consequences_of c) d)) as Hc
      by (intros d; apply Hf; left; reflexivity).
    unfold consequences_of in Hc.
    destruct (fields (analysis c)) as [a|]; [|discriminate].
    destruct (industries a) as [inds|]; [|discriminate].
    apply IH; [intros c' d Hin; apply Hf; right; assumption|].
    clear IH. revert sectors Hs.
    induction inds as [|ind inds IHi]; intros sectors Hs; cbn [fold_left];
      [assumption|].
    apply IHi. apply visit_industry_preserves; assumption.
Qed.

Lemma bump_capped conseq d :
  List.length (reason d) = Nat.min 2 (count d) ->
  List.length (reason (bump conseq d)) = Nat.min 2 (count (bump conseq d)).
Proof.
  intros H. unfold bump. cbn [reason count].
  destruct (Nat.ltb_spec (List.length (reason d)) 2).
  - rewrite length_app. cbn [List.length]. lia.
  - lia.
Qed.

(** X10.  Every sector of the summary carries min(2, count) reasons, at
    least one, so the reason[0] that the page prints is there; and every
    reason is the consequences field of a row of the list. *)
Theorem sector_reasons_capped_at_two :
  forall (cachedAnalyses : list CachedAnalysis.t) (result : Sectors),
    sectorImpacts toLowerCase cachedAnalyses = Some result ->
    forall s d, In (s, d) result ->
      List.length (reason d) = Nat.min 2 (count d) /\
      reason d <> [] /\
      Forall (fun r => exists c, In c cachedAnalyses /\
                                 consequences_of c = r) (reason d).
Proof.
  intros cache result Hres s d Hin.
  unfold sectorImpacts in Hres.
  destruct (visit_rows toLowerCase sectors_init cache) as [after|] eqn:Hv; [|discriminate].
  injection Hres as <-.
  apply filter_In in Hin. destruct Hin as [Hin Hpos]. cbn [snd] in Hpos.
  apply Nat.ltb_lt in Hpos.
  pose (P := fun d : SectorData =>
    List.length (reason d) = Nat.min 2 (count d) /\
    Forall (fun r => exists c, In c cache /\ consequences_of c = r)
           (reason d)).
  assert (Forall (fun e => P (snd e)) after) as Hall.
  { apply (visit_rows_preserves P cache sectors_init after); [| |exact Hv].
    - intros c d0 Hc [Hlen Hfrom]. split; [apply bump_capped; assumption|].
      unfold bump. cbn [reason].
      destruct (List.length (reason d0) <? 2)%nat; [|assumption].
      apply Forall_app. split; [assumption|].
      constructor; [|constructor]. exists c. split; [assumption|reflexivity].
    - unfold sectors_init, P, no_data.
      repeat constructor. }
  rewrite Forall_forall in Hall. destruct (Hall _ Hin) as [Hlen Hfrom].
  cbn [snd] in Hlen, Hfrom.
  split; [exact Hlen|]. split; [|exact Hfrom].
  intros Hnil. rewrite Hnil in Hlen. cbn [List.length] in Hlen. lia.
Qed.

Lemma map_filter_agree {A B} (f : A -> B) (p : A -> bool) (q : B -> bool) l :
  (forall a, In a l -> p a = q (f a)) ->
  map f (filter p l) = filter q (map f l).
Proof.
  induction l as [|a l IH]; intros H; simpl; [reflexivity|].
  rewrite <- (H a (or_introl eq_refl)).
  destruct (p a); simpl; [f_equal|]; apply IH; intros; apply H; right;
    assumption.
Qed.

(** X11.  The summary lists the sectors in the fixed order Energy,
    Defense, Semiconductors, Shipping, Banking, Technology, leaving out
    those that no industry string matches, whatever the order of the
    rows. *)
Theorem sector_impacts_in_fixed_order :
  forall (cachedAnalyses : list CachedAnalysis.t) (result : Sectors),
    sectorImpacts toLowerCase cachedAnalyses = Some result ->
    map fst result =
    filter (fun s => (0 <? matches_of toLowerCase s cachedAnalyses)%nat)
      ["Energy"; "Defense"; "Semiconductors"; "Shipping"; "Banking";
       "Technology"].
Proof.
  intros cache result Hres.
  unfold sectorImpacts in Hres.
  destruct (visit_rows toLowerCase sectors_init cache) as [after|] eqn:Hv; [|discriminate].
  injection Hres as <-.
  assert (forall c, In c cache -> industries_of c <> None) as Hwf.
  { intros c Hc Hnone.
    assert (visit_rows toLowerCase sectors_init cache = None) as Habs
      by (apply visit_rows_none; exists c; auto).
    congruence. }
  destruct (visit_rows_spec toLowerCase "Energy" cache sectors_init
              sectors_init_keys_NoDup ltac:(simpl; auto) Hwf)
    as [after0 [Hv0 [Hkeys _]]].
  rewrite Hv in Hv0. injection Hv0 as <-.
  change ["Energy"; "Defense"; "Semiconductors"; "Shipping"; "Banking";
          "Technology"] with (map fst sectors_init).
  rewrite <- Hkeys. apply map_filter_agree.
  intros [s d] Hin. cbn [fst snd]. f_equal.
  assert (In s (map fst sectors_init)) as Hs
    by (rewrite <- Hkeys; apply (in_map fst) in Hin; exact Hin).
  destruct (visit_rows_spec toLowerCase s cache sectors_init
              sectors_init_keys_NoDup Hs Hwf) as [after' [Hv' [_ Hc]]].
  rewrite Hv in Hv'. injection Hv' as <-.
  assert (count_of s sectors_init = O) as Hzero.
  { simpl in Hs. unfold count_of.
    repeat (destruct Hs as [<-|Hs]; [reflexivity|]). contradiction. }
  rewrite Hzero in Hc. simpl in Hc. rewrite <- Hc.
  unfold count_of.
  assert (NoDup (map fst after)) as Hnd
    by (rewrite Hkeys; apply sectors_init_keys_NoDup).
  apply (get_sector_in s d after Hnd) in Hin. rewrite Hin. reflexivity.
Qed.

End SectorMore.

Section SectorMoreRuns.
Import CachedAnalysis.

(** X10, at two rows that both name the shipping sector. *)
Lemma sector_reasons_capped_at_two_witness :
  let d := {| count := 2;
              reason := [Some "Freight rates rise"; Some "Freight rates rise"] |} in
  List.length (reason d) = Nat.min 2 (count d) /\
  reason d <> [] /\
  Forall (fun r => exists c,
              In c [sample_row "a" 8 20 ["Shipping"];
                    sample_row "b" 3 10 ["Container shipping"]] /\
              consequences_of c = r) (reason d).
Proof.
  cbv zeta.
  apply (sector_reasons_capped_at_two toLowerCase_ascii
           [sample_row "a" 8 20 ["Shipping"];
            sample_row "b" 3 10 ["Container shipping"]]
           [("Shipping",
             {| count := 2;
                reason := [Some "Freight rates rise";
                           Some "Freight rates rise"] |})]
           eq_refl "Shipping").
  left. reflexivity.
Defined.

(** X11, at rows that name banking first and energy second. *)
Lemma sector_impacts_in_fixed_order_witness :
  map fst
    [("Energy", {| count := 1; reason := [Some "Freight rates rise"] |});
     ("Banking", {| count := 1; reason := [Some "Freight rates rise"] |})] =
  filter
    (fun s => (0 <? matches_of toLowerCase_ascii s
                      [sample_row "a" 8 20 ["Investment banking"];
                       sample_row "b" 3 10 ["Renewable energy"]])%nat)
    ["Energy"; "Defense"; "Semiconductors"; "Shipping"; "Banking";
     "Technology"].
Proof.
  apply (sector_impacts_in_fixed_order toLowerCase_ascii
           [sample_row "a" 8 20 ["Investment banking"];
            sample_row "b" 3 10 ["Renewable energy"]]).
  reflexivity.
Defined.

End SectorMoreRuns.

(* ------------------------------------------------------------------ *)
(** ** A session of requests *)

Section SessionFacts.
Import CachedAnalysis.

Variable env : Env.

Ltac run_handler :=
  unfold handleAnalyze, analyzeHeadline, read_riskScore, saveToCache,
    fetchCache, getAI, JSON_parse, try_catch_finally, item_id, item_headline,
    select_if_news, setLoading, setCurrentAnalysis, setCachedAnalyses,
    setSelectedNews, set_db, record_call, sleep, console_error, Date_now,
    modify, gets, throw, bind, ret in *;
  cbn [fst snd] in *.

(** The ways a request can go. *)
Lemma handleAnalyze_outcome item s :
  let s' := snd (handleAnalyze env item s) in
  let i := request_id item s in
  let h := item_headline item in
  loading s' = false /\
  match find (fun c => (id c =? i)%string) (cachedAnalyses s) with
  | Some c =>
      currentAnalysis s' = analysis c /\
      selectedNews s' = selected_after item s /\
      db s' = db s /\ cachedAnalyses s' = cachedAnalyses s /\
      analyzed s' = analyzed s /\ console s' = console s /\
      clock s' = clock s
  | None =>
      analyzed s' = h :: analyzed s /\ (clock s <= clock s')%Z /\
      match fst (analyzeHeadline env h s) with
      | Returned v =>
          currentAnalysis s' = v /\
          match fields v with
          | Some a =>
              selectedNews s' = selected_after item s /\
              db s' =
                snd (Server.post_cache (clock s' / 1000)
                       {| Server.b_id := i; Server.b_headline := h;
                          Server.b_analysis := v;
                          Server.b_risk_score := riskScore a |} (db s)) /\
              cachedAnalyses s' = Server.get_cache (db s') /\
              console s' = console s
          | None =>
              selectedNews s' = selectedNews s /\
              db s' = db s /\ cachedAnalyses s' = cachedAnalyses s /\
              console s' = "Analysis error:" :: console s
          end
      | Thrown e =>
          currentAnalysis s' = currentAnalysis s /\
          selectedNews s' = selectedNews s /\
          db s' = db s /\ cachedAnalyses s' = cachedAnalyses s /\
          console s' = "Analysis error:" :: console s
      end
  end.
Proof.
  cbv zeta. unfold request_id, selected_after.
  destruct item as [n|text]; run_handler; simpl.
  - destruct (find (fun c => (id c =? NewsItem.id n)%string) (cachedAnalyses s));
      simpl; [repeat split|].
    destruct (GEMINI_API_KEY env) as [[|ch k]|]; simpl;
      try (repeat split; lia).
    destruct (generateContent env (List.length (analyzed s))
                (NewsItem.headline n)) as [e|t]; simpl;
      [repeat split; lia|].
    destruct (text_or_braces t) as [|bad|v]; simpl;
      try (repeat split; lia).
    destruct (fields v); simpl; unfold CURRENT_TIMESTAMP; simpl;
      repeat split; lia.
  - destruct (find (fun c => (id c =? custom_id (clock s))%string)
                (cachedAnalyses s));
      simpl; [repeat split|].
    destruct (GEMINI_API_KEY env) as [[|ch k]|]; simpl;
      try (repeat split; lia).
    destruct (generateContent env (List.length (analyzed s)) text) as [e|t];
      simpl; [repeat split; lia|].
    destruct (text_or_braces t) as [|bad|v]; simpl;
      try (repeat split; lia).
    destruct (fields v); simpl; unfold CURRENT_TIMESTAMP; simpl;
      repeat split; lia.
Qed.

Lemma perform_request a s :
  is_request a = true ->
  exists item, perform env a s = snd (handleAnalyze env item s).
Proof.
  destruct a as [n|text|ms]; intros H; [exists (inl n)|exists (inr text)|];
    try reflexivity. discriminate.
Qed.

Lemma perform_wait ms s :
  let s' := perform env (Wait ms) s in
  db s' = db s /\ cachedAnalyses s' = cachedAnalyses s /\
  analyzed s' = analyzed s /\ (clock s <= clock s')%Z.
Proof. cbv zeta. unfold perform, sleep, modify. simpl. repeat split; lia. Qed.

(** X13.  A snapshot that is what GET /api/cache returns stays so over
    any sequence of requests and pauses: a request either leaves table and
    snapshot alone or reads the snapshot again after its write. *)
Theorem session_keeps_snapshot_in_sync :
  forall (actions : list Action) (s : State),
    in_sync s -> in_sync (session env actions s).
Proof.
  unfold session.
  induction actions as [|a actions IH]; intros s Hsync; [assumption|].
  cbn [fold_left]. apply IH. clear IH. unfold in_sync in *.
  destruct (is_request a) eqn:Ha.
  - destruct (perform_request a s Ha) as [item ->].
    pose proof (handleAnalyze_outcome item s) as Hout. cbv zeta in Hout.
    destruct Hout as [_ Hout].
    destruct (find _ (cachedAnalyses s)).
    + destruct Hout as [_ [_ [Hdb [Hcache _]]]]. congruence.
    + destruct Hout as [_ [_ Hout]].
      destruct (fst (analyzeHeadline env (item_headline item) s)) as [v|e].
      * destruct Hout as [_ Hout]. destruct (fields v).
        -- destruct Hout as [_ [_ [Hcache _]]]. exact Hcache.
        -- destruct Hout as [_ [Hdb [Hcache _]]]. congruence.
      * destruct Hout as [_ [_ [Hdb [Hcache _]]]]. congruence.
  - destruct a as [n|text|ms]; try discriminate.
    destruct (perform_wait ms s) as [Hdb [Hcache _]]. congruence.
Qed.

Lemma post_cache_length now body t :
  (List.length (snd (Server.post_cache now body t)) <= S (List.length t))%nat.
Proof.
  unfold Server.post_cache. cbn [snd].
  unfold Server.insert_or_replace. rewrite length_app. cbn [List.length].
  pose proof (filter_length_le
                (fun r => negb (Server.has_id (Server.b_id body) r)) t).
  lia.
Qed.

Lemma perform_bounds a s :
  let s' := perform env a s in
  (forall i, In i (map id (db s)) -> In i (map id (db s'))) /\
  (List.length (analyzed s') <= S (List.length (analyzed s)))%nat /\
  (List.length (db s') <= S (List.length (db s)))%nat /\
  (clock s <= clock s')%Z.
Proof.
  cbv zeta. destruct (is_request a) eqn:Ha.
  - destruct (perform_request a s Ha) as [item ->].
    pose proof (handleAnalyze_outcome item s) as Hout. cbv zeta in Hout.
    destruct Hout as [_ Hout].
    destruct (find _ (cachedAnalyses s)).
    + destruct Hout as [_ [_ [Hdb [_ [Hlog [_ Hclock]]]]]].
      rewrite Hdb, Hlog, Hclock. repeat split; auto; lia.
    + destruct Hout as [Hlog [Hclock Hout]]. rewrite Hlog.
      destruct (fst (analyzeHeadline env (item_headline item) s)) as [v|e].
      * destruct Hout as [_ Hout]. destruct (fields v).
        -- destruct Hout as [_ [Hdb _]]. rewrite Hdb.
           split; [|split; [simpl; lia
                           |split; [apply post_cache_length|exact Hclock]]].
           intros i Hi. apply post_cache_ids. left. exact Hi.
        -- destruct Hout as [_ [Hdb _]]. rewrite Hdb.
           repeat split; auto; simpl; lia.
      * destruct Hout as [_ [_ [Hdb _]]]. rewrite Hdb.
        repeat split; auto; simpl; lia.
  - destruct a as [n|text|ms]; try discriminate.
    destruct (perform_wait ms s) as [Hdb [_ [Hlog Hclock]]].
    rewrite Hdb, Hlog. repeat split; auto; lia.
Qed.

(** X14.  Over any sequence of requests and pauses no identity leaves the
    table, analyzeHeadline is called at most once for each action, the
    table grows by at most one row for each action, and the clock does not
    go back. *)
Theorem session_never_deletes :
  forall (actions : list Action) (s : State),
    let s' := session env actions s in
    (forall i, In i (map id (db s)) -> In i (map id (db s'))) /\
    (List.length (analyzed s') <=
       List.length (analyzed s) + List.length actions)%nat /\
    (List.length (db s') <= List.length (db s) + List.length actions)%nat /\
    (clock s <= clock s')%Z.
Proof.
  unfold session.
  induction actions as [|a actions IH]; intros s; cbn [fold_left List.length].
  - repeat split; auto; lia.
  - destruct (perform_bounds a s) as [Hids [Hlog [Hdb Hclock]]].
    destruct (IH (perform env a s)) as [Hids' [Hlog' [Hdb' Hclock']]].
    repeat split; [auto|lia|lia|lia].
Qed.

(** The score that the text of an analysis reads back with is the score
    that the column gets. *)
Lemma score_of_roundtrip v a :
  fields v = Some a ->
  score_of_analysis (JSON_roundtrip v) = Server.stored_score (riskScore a).
Proof.
  destruct v as [|text|b]; intros [= <-]; reflexivity.
Qed.

Lemma post_from_analysis_agrees now i h v a t :
  fields v = Some a ->
  scores_agree t ->
  scores_agree
    (snd (Server.post_cache now
            {| Server.b_id := i; Server.b_headline := h;
               Server.b_analysis := v; Server.b_risk_score := riskScore a |} t)).
Proof.
  unfold scores_agree, Server.post_cache. intros Hv Ht.
  cbn [Server.b_risk_score Server.b_id Server.b_headline Server.b_analysis snd].
  unfold Server.insert_or_replace. apply Forall_app. split.
  - rewrite Forall_forall in *. intros r Hr. apply Ht.
    apply filter_In in Hr. tauto.
  - constructor; [|constructor]. cbn [analysis risk_score].
    symmetry. apply score_of_roundtrip. exact Hv.
Qed.

Lemma perform_scores_agree a s :
  scores_agree (db s) -> scores_agree (db (perform env a s)).
Proof.
  intros Hs. destruct (is_request a) eqn:Ha.
  - destruct (perform_request a s Ha) as [item ->].
    pose proof (handleAnalyze_outcome item s) as Hout. cbv zeta in Hout.
    destruct Hout as [_ Hout].
    destruct (find _ (cachedAnalyses s)).
    + destruct Hout as [_ [_ [Hdb _]]]. rewrite Hdb. assumption.
    + destruct Hout as [_ [_ Hout]].
      destruct (fst (analyzeHeadline env (item_headline item) s)) as [v|e].
      * destruct Hout as [_ Hout]. destruct (fields v) as [a0|] eqn:Hv.
        -- destruct Hout as [_ [Hdb _]]. rewrite Hdb.
           apply post_from_analysis_agrees; assumption.
        -- destruct Hout as [_ [Hdb _]]. rewrite Hdb. assumption.
      * destruct Hout as [_ [_ [Hdb _]]]. rewrite Hdb. assumption.
  - destruct a as [n|text|ms]; try discriminate.
    destruct (perform_wait ms s) as [Hdb _]. rewrite Hdb. assumption.
Qed.

(** What one turn of the loop of init does to the state. *)
Lemma backfill_item_outcome item s :
  let r := backfill_item env item s in
  let s' := snd r in
  analyzed s' = NewsItem.headline item :: analyzed s /\
  cachedAnalyses s' = cachedAnalyses s /\
  console s' = console s /\
  news s' = news s /\
  match fst (analyzeHeadline env (NewsItem.headline item) s) with
  | Returned v =>
      match fields v with
      | Some a =>
          fst r = Returned tt /\
          db s' =
            snd (Server.post_cache (clock s' / 1000)
                   {| Server.b_id := NewsItem.id item;
                      Server.b_headline := NewsItem.headline item;
                      Server.b_analysis := v;
                      Server.b_risk_score := riskScore a |} (db s))
      | None => fst r = Thrown "TypeError" /\ db s' = db s
      end
  | Thrown e => fst r = Thrown e /\ db s' = db s
  end.
Proof.
  cbv zeta. unfold backfill_item. run_handler. simpl.
  destruct (GEMINI_API_KEY env) as [[|ch k]|]; simpl;
    try (repeat split; fail).
  destruct (generateContent env (List.length (analyzed s))
              (NewsItem.headline item)) as [e|t]; simpl;
    [repeat split|].
  destruct (text_or_braces t) as [|bad|v]; simpl; try (repeat split; fail).
  destruct (fields v); simpl; unfold CURRENT_TIMESTAMP; simpl;
    repeat split.
Qed.

Lemma backfill_item_scores_agree item s :
  scores_agree (db s) ->
  scores_agree (db (snd (backfill_item env item s))).
Proof.
  intros Hs.
  pose proof (backfill_item_outcome item s) as Hout. cbv zeta in Hout.
  destruct Hout as [_ [_ [_ [_ Hout]]]].
  destruct (fst (analyzeHeadline env (NewsItem.headline item) s)) as [v|e].
  - destruct (fields v) as [a|] eqn:Hv; destruct Hout as [_ Hdb]; rewrite Hdb;
      [apply post_from_analysis_agrees|]; assumption.
  - destruct Hout as [_ Hdb]. rewrite Hdb. assumption.
Qed.

Lemma backfill_loop_scores_agree items : forall s,
  scores_agree (db s) ->
  scores_agree (db (snd (for_of items (backfill_item env) s))).
Proof.
  induction items as [|item items IH]; intros s Hs; [assumption|].
  cbn [for_of]. unfold bind.
  pose proof (backfill_item_scores_agree item s Hs) as Hitem.
  destruct (backfill_item env item s) as [[[]|e] s1]; cbn [fst snd] in *.
  - apply IH. assumption.
  - assumption.
Qed.

Lemma init_run s :
  init env s =
  (Returned tt,
   match rss env with
   | None =>
       snd (setIsInitializing false
              (snd (console_error "Initialization error:" s)))
   | Some newsData =>
       let s0 := snd (setCachedAnalyses (Server.get_cache (db s))
                        (snd (setNews newsData s))) in
       if (List.length (Server.get_cache (db s)) <? 5)%nat &&
          (0 <? List.length newsData)%nat
       then
         match for_of (firstn 5 newsData) (backfill_item env) s0 with
         | (Returned _, s1) =>
             snd (setIsInitializing false
                    (snd (setCachedAnalyses (Server.get_cache (db s1)) s1)))
         | (Thrown e, s1) =>
             snd (setIsInitializing false
                    (snd (console_error "Initialization error:" s1)))
         end
       else snd (setIsInitializing false s0)
   end).
Proof.
  unfold init, try_catch_finally, fetchNews.
  destruct (rss env) as [newsData|]; [|reflexivity].
  unfold bind at 1. unfold ret at 1.
  unfold bind at 1. unfold fetchCache at 1, gets at 1.
  unfold bind at 1. unfold setNews at 1, modify at 1.
  unfold bind at 1. unfold setCachedAnalyses at 1, modify at 1.
  cbv beta iota zeta.
  unfold setCachedAnalyses at 3, setNews, modify.
  cbn [snd news cachedAnalyses selectedNews currentAnalysis loading
       isInitializing db clock analyzed console].
  destruct ((List.length (Server.get_cache (db s)) <? 5)%nat &&
            (0 <? List.length newsData)%nat); [|reflexivity].
  unfold bind at 1.
  destruct (for_of (firstn 5 newsData) (backfill_item env) _)
    as [[[]|e] s1]; reflexivity.
Qed.

(** The ways init can go. *)
Lemma init_outcome s :
  let s' := snd (init env s) in
  isInitializing s' = false /\
  match rss env with
  | None =>
      news s' = news s /\ cachedAnalyses s' = cachedAnalyses s /\
      db s' = db s /\ analyzed s' = analyzed s /\
      console s' = "Initialization error:" :: console s
  | Some newsData =>
      news s' = newsData /\
      if (List.length (Server.get_cache (db s)) <? 5)%nat &&
         (0 <? List.length newsData)%nat
      then
        let r := for_of (firstn 5 newsData) (backfill_item env)
                   (snd (setCachedAnalyses (Server.get_cache (db s))
                           (snd (setNews newsData s)))) in
        db s' = db (snd r) /\ analyzed s' = analyzed (snd r) /\
        news (snd r) = newsData /\
        match fst r with
        | Returned _ =>
            cachedAnalyses s' = Server.get_cache (db s') /\
            console s' = console (snd r)
        | Thrown e =>
            cachedAnalyses s' = cachedAnalyses (snd r) /\
            console s' = "Initialization error:" :: console (snd r)
        end
      else
        db s' = db s /\ analyzed s' = analyzed s /\
        cachedAnalyses s' = Server.get_cache (db s) /\
        console s' = console s
  end.
Proof.
  cbv zeta. rewrite init_run. cbn [snd].
  destruct (rss env) as [newsData|]; [|repeat split].
  cbv zeta.
  destruct ((List.length (Server.get_cache (db s)) <? 5)%nat &&
            (0 <? List.length newsData)%nat); [|repeat split].
  assert (forall items s0, news (snd (for_of items (backfill_item env) s0))
                           = news s0) as Hnews.
  { induction items as [|item items IH]; intros s0; [reflexivity|].
    cbn [for_of]. unfold bind.
    pose proof (backfill_item_outcome item s0) as Hout. cbv zeta in Hout.
    destruct Hout as [_ [_ [_ [Hn _]]]].
    destruct (backfill_item env item s0) as [[[]|e] s1]; cbn [snd] in *.
    - rewrite IH. exact Hn.
    - exact Hn. }
  specialize (Hnews (firstn 5 newsData)
                (snd (setCachedAnalyses (Server.get_cache (db s))
                        (snd (setNews newsData s))))).
  destruct (for_of (firstn 5 newsData) (backfill_item env) _)
    as [[[]|e] s1]; cbn [fst snd] in *; repeat split; exact Hnews.
Qed.

(** X15.  The column risk_score keeps repeating the riskScore of the
    stored analysis.  When every row of the table has for score the
    riskScore that its analysis reads back with, NULL when the analysis
    has none, this is still so after init and after any sequence of
    requests and pauses. *)
Theorem score_column_agrees_with_analysis :
  forall (actions : list Action) (s : State),
    scores_agree (db s) ->
    scores_agree (db (snd (init env s))) /\
    scores_agree (db (session env actions s)).
Proof.
  intros actions s Hs. split.
  - pose proof (init_outcome s) as Hout. cbv zeta in Hout.
    destruct Hout as [_ Hout].
    destruct (rss env) as [newsData|].
    + destruct Hout as [_ Hout].
      destruct ((List.length (Server.get_cache (db s)) <? 5)%nat &&
                (0 <? List.length newsData)%nat).
      * destruct Hout as [Hdb _]. rewrite Hdb.
        apply backfill_loop_scores_agree. exact Hs.
      * destruct Hout as [Hdb _]. rewrite Hdb. exact Hs.
    + destruct Hout as [_ [_ [Hdb _]]]. rewrite Hdb. exact Hs.
  - revert s Hs. unfold session.
    induction actions as [|a actions IH]; intros s Hs; [assumption|].
    cbn [fold_left]. apply IH. apply perform_scores_agree. assumption.
Qed.

(** X16.  A request for a custom headline never touches selectedNews, so
    the title over the analysis stays the headline of the item selected
    before, if there is one; and every request ends with loading off. *)
Theorem custom_request_keeps_selection :
  forall (s : State) (text customHeadline : string),
    let s' := snd (handleAnalyze env (inr text) s) in
    selectedNews s' = selectedNews s /\
    title_shown s' customHeadline = title_shown s customHeadline /\
    loading s' = false.
Proof.
  intros s text custom s'.
  pose proof (handleAnalyze_outcome (inr text) s) as Hout. cbv zeta in Hout.
  fold s' in Hout. destruct Hout as [Hload Hout].
  assert (selectedNews s' = selectedNews s) as Hsel.
  { destruct (find _ (cachedAnalyses s)).
    - destruct Hout as [_ [Hsel _]]. exact Hsel.
    - destruct Hout as [_ [_ Hout]].
      destruct (fst (analyzeHeadline env (item_headline (inr text)) s))
        as [v|e].
      + destruct Hout as [_ Hout].
        destruct (fields v); destruct Hout as [Hsel _]; exact Hsel.
      + destruct Hout as [_ [Hsel _]]. exact Hsel. }
  split; [exact Hsel|]. split; [|exact Hload].
  unfold title_shown. rewrite Hsel. reflexivity.
Qed.

(** X17.  When the feed cannot be read, init shows nothing: the news and
    the snapshot stay as they were although the cache could be read,
    nothing is analysed or written, the error is logged and the
    initialisation ends. *)
Theorem init_without_feed_shows_nothing :
  forall (s : State),
    rss env = None ->
    let s' := snd (init env s) in
    news s' = news s /\
    cachedAnalyses s' = cachedAnalyses s /\
    db s' = db s /\
    analyzed s' = analyzed s /\
    console s' = "Initialization error:" :: console s /\
    isInitializing s' = false.
Proof.
  intros s Hrss s'.
  pose proof (init_outcome s) as Hout. cbv zeta in Hout. fold s' in Hout.
  rewrite Hrss in Hout. destruct Hout as [Hinit [Hn [Hc [Hd [Ha Hl]]]]].
  repeat split; assumption.
Qed.

(** X18.  With a feed that is read, init analyses nothing when the cache
    already returns 5 rows or more, or when the feed is empty: the news
    are shown, the snapshot is what GET /api/cache returns, and neither the
    table nor the console changes. *)
Theorem init_skips_backfill_when_cache_is_filled :
  forall (s : State) (newsData : list NewsItem.t),
    rss env = Some newsData ->
    (5 <= List.length (Server.get_cache (db s)))%nat \/ newsData = [] ->
    let s' := snd (init env s) in
    news s' = newsData /\
    in_sync s' /\
    db s' = db s /\
    analyzed s' = analyzed s /\
    console s' = console s /\
    isInitializing s' = false.
Proof.
  intros s newsData Hrss Hskip s'.
  pose proof (init_outcome s) as Hout. cbv zeta in Hout. fold s' in Hout.
  rewrite Hrss in Hout. destruct Hout as [Hinit [Hn Hout]].
  assert ((List.length (Server.get_cache (db s)) <? 5)%nat &&
          (0 <? List.length newsData)%nat = false) as Hcond.
  { apply andb_false_iff. destruct Hskip as [Hfull| ->].
    - left. apply Nat.ltb_ge. exact Hfull.
    - right. reflexivity. }
  rewrite Hcond in Hout. destruct Hout as [Hd [Ha [Hc Hl]]].
  unfold in_sync. rewrite Hd. repeat split; assumption.
Qed.

Lemma backfill_loop_all_returned items : forall s,
  (forall h s0, exists v,
      fst (analyzeHeadline env h s0) = Returned v /\ fields v <> None) ->
  fst (for_of items (backfill_item env) s) = Returned tt.
Proof.
  induction items as [|item items IH]; intros s Hok; [reflexivity|].
  cbn [for_of]. unfold bind.
  pose proof (backfill_item_outcome item s) as Hout. cbv zeta in Hout.
  destruct Hout as [_ [_ [_ [_ Hout]]]].
  destruct (Hok (NewsItem.headline item) s) as [v [Hv Hobj]].
  rewrite Hv in Hout.
  destruct (fields v) as [a|]; [|contradiction].
  destruct Hout as [Hret _].
  destruct (backfill_item env item s) as [[[]|e] s1]; cbn [fst] in Hret;
    [|discriminate].
  apply IH. exact Hok.
Qed.

(** X19.  With a feed that is not empty, a cache that returns fewer than
    5 rows and an engine that answers every request with a value that is
    not null, init passes the first 5 headlines of the feed (all of them
    when there are fewer) to analyzeHeadline, in the order of the feed and
    without looking whether their identities are cached; then the snapshot
    is read again and no error is logged. *)
Theorem init_backfills_first_five :
  forall (s : State) (newsData : list NewsItem.t),
    rss env = Some newsData ->
    newsData <> [] ->
    (List.length (Server.get_cache (db s)) < 5)%nat ->
    (forall h s0, exists v,
        fst (analyzeHeadline env h s0) = Returned v /\ fields v <> None) ->
    let s' := snd (init env s) in
    analyzed s' =
      rev (map NewsItem.headline (firstn 5 newsData)) ++ analyzed s /\
    in_sync s' /\
    news s' = newsData /\
    console s' = console s /\
    isInitializing s' = false.
Proof.
  intros s newsData Hrss Hne Hsparse Hok s'.
  pose proof (init_outcome s) as Hout. cbv zeta in Hout. fold s' in Hout.
  rewrite Hrss in Hout. destruct Hout as [Hinit [Hn Hout]].
  assert ((List.length (Server.get_cache (db s)) <? 5)%nat &&
          (0 <? List.length newsData)%nat = true) as Hcond.
  { apply andb_true_iff. split; [apply Nat.ltb_lt; exact Hsparse|].
    apply Nat.ltb_lt. destruct newsData; [contradiction|simpl; lia]. }
  rewrite Hcond in Hout.
  pose proof (backfill_loop_all_returned (firstn 5 newsData)
                (snd (setCachedAnalyses (Server.get_cache (db s))
                        (snd (setNews newsData s)))) Hok) as Hret.
  destruct (for_of (firstn 5 newsData) (backfill_item env)
              (snd (setCachedAnalyses (Server.get_cache (db s))
                      (snd (setNews newsData s))))) as [r s1] eqn:Hloop.
  cbn [fst snd] in *. subst r.
  destruct Hout as [Hd [Ha [_ [Hc Hl]]]].
  destruct (backfill_loop_returned env _ _ _ Hloop) as [Hlog [_ Hcon]].
  unfold in_sync. repeat split; try assumption.
  - rewrite Ha, Hlog. reflexivity.
  - rewrite Hl, Hcon. reflexivity.
Qed.

End SessionFacts.

Section MoreRuns.
Import CachedAnalysis.

(** X13, at a request, a pause and a custom headline after the start. *)
Lemma session_keeps_snapshot_in_sync_witness :
  in_sync
    (session steady_env
       [Click (sample_item 1); Wait 500; Submit "Strait closed"]
       (initial_state [] 0)).
Proof.
  apply (session_keeps_snapshot_in_sync steady_env
           [Click (sample_item 1); Wait 500; Submit "Strait closed"]
           (initial_state [] 0)).
  reflexivity.
Defined.

Lemma to_int_not_nil z :
  Z.to_int z <> Decimal.Pos Decimal.Nil /\ Z.to_int z <> Decimal.Neg Decimal.Nil.
Proof.
  destruct z as [|p|p]; simpl; split; try discriminate;
    intros [= H]; apply (DecimalPos.Unsigned.to_uint_nonnil p); exact H.
Qed.

(** X20.  The identity made for a custom headline determines the
    millisecond at which it was made: two submissions get the same
    identity only at the same reading of the clock, so a later submission
    of any text is stored under an identity of its own. *)
Theorem custom_id_is_injective :
  forall (now now' : Z), custom_id now = custom_id now' <-> now = now'.
Proof.
  intros now now'. split; [|intros ->; reflexivity].
  unfold custom_id. intros H. cbn [append] in H. injection H as H.
  apply DecimalZ.to_int_inj.
  destruct (to_int_not_nil now) as [Hp Hn].
  destruct (to_int_not_nil now') as [Hp' Hn'].
  pose proof (NilZero.isi (Z.to_int now) Hp Hn) as H1.
  pose proof (NilZero.isi (Z.to_int now') Hp' Hn') as H2.
  rewrite H in H1. rewrite H1 in H2. injection H2 as H2. exact H2.
Qed.

(** X16, at a custom headline submitted after the item 1 was selected. *)
Lemma custom_request_keeps_selection_witness :
  let s := session steady_env [Click (sample_item 1)] (initial_state [] 0) in
  let s' := snd (handleAnalyze steady_env (inr "Strait closed") s) in
  selectedNews s' = Some (sample_item 1) /\
  title_shown s' "Strait closed" = "Headline 1" /\
  currentAnalysis s' = JObject (sample_analysis 2 ["Shipping"]).
Proof.
  cbv zeta.
  destruct (custom_request_keeps_selection steady_env
              (session steady_env [Click (sample_item 1)] (initial_state [] 0))
              "Strait closed" "Strait closed") as [Hsel [Htitle _]].
  split; [rewrite Hsel; reflexivity|].
  split; [rewrite Htitle; reflexivity|reflexivity].
Defined.

(** X15, at the start with an empty table. *)
Lemma score_column_agrees_with_analysis_witness :
  scores_agree (db (snd (init steady_env (initial_state [] 0)))) /\
  scores_agree
    (db (session steady_env [Click (sample_item 6); Submit "Strait closed"]
           (initial_state [] 0))).
Proof.
  apply (score_column_agrees_with_analysis steady_env
           [Click (sample_item 6); Submit "Strait closed"] (initial_state [] 0)).
  constructor.
Defined.

(** X17, at an environment whose feed cannot be read and a table with one
    row. *)
Lemma init_without_feed_shows_nothing_witness :
  let env := {| GEMINI_API_KEY := Some "key";
                generateContent := fun _ _ => Rejected "503";
                latency := fun _ => 0%N; rss := None |} in
  let s := initial_state [sample_row "a" 8 10 []] 0 in
  let s' := snd (init env s) in
  news s' = [] /\
  cachedAnalyses s' = [] /\
  db s' = db s /\
  analyzed s' = [] /\
  console s' = ["Initialization error:"] /\
  isInitializing s' = false.
Proof.
  cbv zeta.
  apply (init_without_feed_shows_nothing
           {| GEMINI_API_KEY := Some "key";
              generateContent := fun _ _ => Rejected "503";
              latency := fun _ => 0%N; rss := None |}
           (initial_state [sample_row "a" 8 10 []] 0)).
  reflexivity.
Defined.

(** X18, at a table that already has five rows. *)
Lemma init_skips_backfill_when_cache_is_filled_witness :
  let t := [sample_row "a" 1 10 []; sample_row "b" 2 20 [];
            sample_row "c" 3 30 []; sample_row "d" 4 40 [];
            sample_row "e" 5 50 []] in
  let s' := snd (init steady_env (initial_state t 0)) in
  news s' = map sample_item (seq 0 8) /\
  in_sync s' /\
  db s' = t /\
  analyzed s' = [] /\
  console s' = [] /\
  isInitializing s' = false.
Proof.
  cbv zeta.
  apply (init_skips_backfill_when_cache_is_filled steady_env
           (initial_state
              [sample_row "a" 1 10 []; sample_row "b" 2 20 [];
               sample_row "c" 3 30 []; sample_row "d" 4 40 [];
               sample_row "e" 5 50 []] 0)
           (map sample_item (seq 0 8))).
  - reflexivity.
  - left. simpl. lia.
Defined.

(** X19, at a table that already holds a row for the first item of the
    feed: its headline is analysed all the same. *)
Lemma init_backfills_first_five_witness :
  let s := initial_state [sample_row "guid-0" 4 0 ["Shipping"]] 5000 in
  let s' := snd (init steady_env s) in
  analyzed s' =
    rev (map NewsItem.headline (firstn 5 (map sample_item (seq 0 8)))) ++ [] /\
  in_sync s' /\
  news s' = map sample_item (seq 0 8) /\
  console s' = [] /\
  isInitializing s' = false.
Proof.
  cbv zeta.
  apply (init_backfills_first_five steady_env
           (initial_state [sample_row "guid-0" 4 0 ["Shipping"]] 5000)
           (map sample_item (seq 0 8))).
  - reflexivity.
  - discriminate.
  - simpl. lia.
  - intros h s0. eexists. split; [reflexivity|discriminate].
Defined.

End MoreRuns.
